(** * Overlord launcher and warehouse dashboard: a shallow embedding

    The development follows the JavaScript sources:
    - [electron-app/renderer.js]: the renderer's log classifier, the
      dashboard statistics, the [.env] loader and the IPC handlers of
      the main process that supervise the python build child;
    - [inventory-dashboard/frontend]: the API client [lib/api.js], the
      [StockAlert] panel, the [Dashboard] page and the [ProductTable].

    JavaScript strings are modelled by [string]; the characters with a
    code below 128 behave as in JavaScript, the others stand for
    characters that are neither white space nor cased letters. *)

From Stdlib Require Import ZArith QArith String Ascii List Permutation Lia.
From Stdlib Require Import Qround Qabs DecimalString Sorted.
From stdpp Require Import gmap strings list.

Close Scope Q_scope.
Local Open Scope string_scope.
Local Open Scope list_scope.
#[local] Set Warnings "-clear-no-such-hyp".

(* ================================================================= *)
(** ** JavaScript string primitives used by the sources *)

Module JS.

(** White space removed by [String.prototype.trim] (tab, line feed,
    vertical tab, form feed, carriage return, space). *)
Definition is_white (c : ascii) : bool :=
  let n := nat_of_ascii c in
  (Nat.eqb n 9 || Nat.eqb n 10 || Nat.eqb n 11 || Nat.eqb n 12
   || Nat.eqb n 13 || Nat.eqb n 32)%bool.

Fixpoint trimStart (s : string) : string :=
  match s with
  | String c r => if is_white c then trimStart r else s
  | EmptyString => EmptyString
  end.

(** [trimEnd] keeps a character when it is not white space or when
    something survives after it. *)
Fixpoint trimEnd (s : string) : string :=
  match s with
  | String c r =>
      match trimEnd r with
      | EmptyString => if is_white c then EmptyString else String c EmptyString
      | r' => String c r'
      end
  | EmptyString => EmptyString
  end.

Definition trim (s : string) : string := trimEnd (trimStart s).

(** A blank line: nothing but white space. *)
Fixpoint all_white (s : string) : bool :=
  match s with
  | EmptyString => true
  | String c r => is_white c && all_white r
  end.

(** Truthiness of a string: only the empty string is falsy. *)
Definition truthy (s : string) : bool :=
  match s with EmptyString => false | String _ _ => true end.

(** [s.split(sep)] for a one-character separator: never empty, the
    last segment is what follows the last separator. *)
Fixpoint split (sep : ascii) (s : string) : list string :=
  match s with
  | EmptyString => [EmptyString]
  | String c r =>
      if Ascii.eqb c sep then EmptyString :: split sep r
      else match split sep r with
           | seg :: segs => String c seg :: segs
           | [] => [String c EmptyString]
           end
  end.

(** [segs.join(sep)]. *)
Fixpoint join (sep : ascii) (segs : list string) : string :=
  match segs with
  | [] => EmptyString
  | [seg] => seg
  | seg :: rest => seg +:+ String sep (join sep rest)
  end.

(** [s.indexOf(c)] for a one-character needle; [-1] when absent. *)
Fixpoint indexOf (c : ascii) (s : string) : Z :=
  match s with
  | EmptyString => (-1)%Z
  | String d r =>
      if Ascii.eqb d c then 0%Z
      else let i := indexOf c r in
           if (i <? 0)%Z then (-1)%Z else (i + 1)%Z
  end.

Fixpoint take (n : nat) (s : string) : string :=
  match n, s with
  | S m, String c r => String c (take m r)
  | _, _ => EmptyString
  end.

Fixpoint drop (n : nat) (s : string) : string :=
  match n, s with
  | S m, String _ r => drop m r
  | _, _ => s
  end.

(** [s.substring(i, j)] and [s.substring(i)] for [0 <= i <= j]. *)
Definition substring (i j : Z) (s : string) : string :=
  take (Z.to_nat (j - i)) (drop (Z.to_nat i) s).
Definition substringFrom (i : Z) (s : string) : string :=
  drop (Z.to_nat i) s.

Fixpoint startsWith (p s : string) : bool :=
  match p, s with
  | EmptyString, _ => true
  | String a p', String b s' => Ascii.eqb a b && startsWith p' s'
  | String _ _, EmptyString => false
  end.

(** [s.includes(p)]. *)
Fixpoint includes (p s : string) : bool :=
  startsWith p s
  || match s with
     | EmptyString => false
     | String _ r => includes p r
     end.

Definition upper_char (c : ascii) : ascii :=
  let n := nat_of_ascii c in
  if (Nat.leb 97 n && Nat.leb n 122)%bool then ascii_of_nat (n - 32) else c.

Definition lower_char (c : ascii) : ascii :=
  let n := nat_of_ascii c in
  if (Nat.leb 65 n && Nat.leb n 90)%bool then ascii_of_nat (n + 32) else c.

Fixpoint map_chars (f : ascii -> ascii) (s : string) : string :=
  match s with
  | EmptyString => EmptyString
  | String c r => String (f c) (map_chars f r)
  end.

Definition toUpperCase : string -> string := map_chars upper_char.
Definition toLowerCase : string -> string := map_chars lower_char.

(** Decimal rendering of an integer, as template literals do. *)
Definition show_Z (z : Z) : string := NilZero.string_of_int (Z.to_int z).

End JS.

(* ================================================================= *)
(** ** The [.env] loader of the main process (renderer.js, 564-583) *)

Module Dotenv.

(** What [fs.existsSync] and [fs.readFileSync] find at [dotenvPath]. *)
Inductive dotenv_file :=
| Missing
| Unreadable
| Content (envContent : string).

(** The environment is the map of the variables that are set, with
    names told apart by case, as on POSIX.  A read [process.env[key]]
    of a name that is not set falls through to [Object.prototype],
    whose own properties are these; each holds a function or an
    object. *)
Definition Object_prototype : list string :=
  [ "constructor"; "__defineGetter__"; "__defineSetter__"; "hasOwnProperty";
    "__lookupGetter__"; "__lookupSetter__"; "isPrototypeOf";
    "propertyIsEnumerable"; "toString"; "valueOf"; "__proto__";
    "toLocaleString" ].

Definition inherited (key : string) : bool :=
  bool_decide (key ∈ Object_prototype).

(** The truthiness of [process.env[key]]: a variable set to the empty
    string is falsy; a name that is not set is falsy unless it is
    found on the prototype. *)
Definition env_truthy (env : gmap string string) (key : string) : bool :=
  match env !! key with
  | Some v => JS.truthy v
  | None => inherited key
  end.

(** The key-value pair a line defines, when it defines one. *)
Definition parse_line (line : string) : option (string * string) :=
  let trimmed := JS.trim line in
  if (JS.truthy trimmed && negb (JS.startsWith "#" trimmed))%bool then
    let eqIdx := JS.indexOf "="%char trimmed in
    if (0 <? eqIdx)%Z then
      Some (JS.trim (JS.substring 0 eqIdx trimmed),
            JS.trim (JS.substringFrom (eqIdx + 1) trimmed))
    else None
  else None.

(** The body of the [forEach] callback. *)
Definition load_line (env : gmap string string) (line : string)
  : gmap string string :=
  match parse_line line with
  | Some (key, val) =>
      if negb (env_truthy env key) then <[key := val]> env else env
  | None => env
  end.

(** The whole [try] block: a missing file is skipped, a failing read
    is swallowed by the empty [catch]. *)
Definition load_dotenv (env : gmap string string) (f : dotenv_file)
  : gmap string string :=
  match f with
  | Missing => env
  | Unreadable => env
  | Content envContent =>
      fold_left load_line (JS.split "010"%char envContent) env
  end.

End Dotenv.

(* ================================================================= *)
(** ** The main process: supervising the python build child
       (renderer.js, 623-790) *)

Module Launcher.

(** Payload of a [build-complete] message.  [code] is [None] when
    the object has no such field, and [Some None] when the field
    holds [null] (a child ended by a signal); a missing [aborted]
    field reads as falsy. *)
Record build_result := {
  success : bool;
  code : option (option Z);
  aborted : bool
}.

Inductive reply :=
| LogUpdate (text : string)
| BuildComplete (result : build_result).

(** What a handler does to the outside world, in program order.
    Children are named by their rank of creation. *)
Inductive effect :=
| Kill (child : nat)
| Spawn (child : nat)
| Reply (msg : reply).

(** The variables the handlers share: the handle [pythonProcess]
    ([None] is [null]) and the number of children spawned so far. *)
Record main_state := {
  pythonProcess : option nat;
  spawned : nat
}.

(** Handlers thread the shared variables and append their effects. *)
Definition handler (A : Type) : Type :=
  main_state -> A * main_state * list effect.

#[export] Instance handler_ret : MRet handler :=
  fun A a st => (a, st, []).
#[export] Instance handler_bind : MBind handler :=
  fun A B f m st =>
    let '(a, st1, out1) := m st in
    let '(b, st2, out2) := f a st1 in
    (b, st2, out1 ++ out2).

Definition read_handle : handler (option nat) :=
  fun st => (pythonProcess st, st, []).
Definition write_handle (h : option nat) : handler unit :=
  fun st => (tt, {| pythonProcess := h; spawned := spawned st |}, []).
Definition emit (e : effect) : handler unit :=
  fun st => (tt, st, [e]).
Definition spawn : handler nat :=
  fun st => (spawned st,
             {| pythonProcess := pythonProcess st; spawned := S (spawned st) |},
             [Spawn (spawned st)]).

Definition killPython : handler unit :=
  h ← read_handle;
  match h with
  | Some child => emit (Kill child) ;; write_handle None
  | None => mret tt
  end.

(** [ipcMain.on('start-build')]: the command line and environment
    built between [killPython()] and [spawn] touch neither the
    handle nor the IPC channel. *)
Definition start_build : handler unit :=
  killPython ;;
  child ← spawn;
  write_handle (Some child).

(** The lines a [data] chunk is forwarded as. *)
Definition chunk_lines (data : string) : list string :=
  filter (fun l => JS.truthy (JS.trim l) = true) (JS.split "010"%char data).

Definition on_stdout (data : string) : handler unit :=
  fun st => (tt, st, map (fun line => Reply (LogUpdate line)) (chunk_lines data)).

Definition on_stderr (data : string) : handler unit :=
  fun st => (tt, st,
             map (fun line => Reply (LogUpdate ("[ERROR] " +:+ line)))
                 (chunk_lines data)).

(** [pythonProcess.on('close')]; [exit] is [None] for [null]. *)
Definition on_close (exit : option Z) : handler unit :=
  (match exit with
   | Some 0%Z =>
       emit (Reply (BuildComplete
                      {| success := true; code := None; aborted := false |}))
   | _ =>
       emit (Reply (BuildComplete
                      {| success := false; code := Some exit; aborted := false |}))
   end) ;;
  write_handle None.

(** [pythonProcess.on('error')]. *)
Definition on_error (message : string) : handler unit :=
  emit (Reply (LogUpdate ("[ERROR] Failed to start Python: " +:+ message))) ;;
  emit (Reply (BuildComplete
                 {| success := false; code := None; aborted := false |})) ;;
  write_handle None.

(** [ipcMain.on('cancel-build')]. *)
Definition cancel_build : handler unit :=
  h ← read_handle;
  match h with
  | Some _ =>
      killPython ;;
      emit (Reply (LogUpdate "[ERROR] Build aborted by operator.")) ;;
      emit (Reply (BuildComplete
                     {| success := false; code := None; aborted := true |}))
  | None => mret tt
  end.

(** *** The launcher and its children as a transition system *)

Inductive event :=
| StartBuild
| CancelBuild
| WindowClosed
| StdoutData (child : nat) (data : string)
| StderrData (child : nat) (data : string)
| SpawnError (child : nat) (message : string)
| Close (child : nat) (exit : option Z).

(** [running]: children spawned whose [close] event is still to
    come; [killed]: children [kill()] was called on; [outbox]: the
    IPC messages sent so far, oldest first. *)
Record world := {
  main : main_state;
  running : list nat;
  killed : list nat;
  outbox : list reply
}.

Definition initial : world :=
  {| main := {| pythonProcess := None; spawned := 0 |};
     running := []; killed := []; outbox := [] |}.

Definition perform (w : world) (e : effect) : world :=
  match e with
  | Kill c => {| main := main w; running := running w;
                 killed := c :: killed w; outbox := outbox w |}
  | Spawn c => {| main := main w; running := c :: running w;
                  killed := killed w; outbox := outbox w |}
  | Reply m => {| main := main w; running := running w;
                  killed := killed w; outbox := outbox w ++ [m] |}
  end.

Definition run_handler (h : handler unit) (w : world) : world :=
  let '(_, st, out) := h (main w) in
  fold_left perform out
    {| main := st; running := running w; killed := killed w; outbox := outbox w |}.

Definition is_running (w : world) (c : nat) : bool :=
  bool_decide (c ∈ running w).

(** Events of a child are delivered only while it runs; its [close]
    event is the last one. *)
Definition deliver (w : world) (ev : event) : option world :=
  match ev with
  | StartBuild => Some (run_handler start_build w)
  | CancelBuild => Some (run_handler cancel_build w)
  | WindowClosed => Some (run_handler killPython w)
  | StdoutData c data =>
      if is_running w c then Some (run_handler (on_stdout data) w) else None
  | StderrData c data =>
      if is_running w c then Some (run_handler (on_stderr data) w) else None
  | SpawnError c message =>
      if is_running w c then Some (run_handler (on_error message) w) else None
  | Close c exit =>
      if is_running w c then
        let w' := run_handler (on_close exit) w in
        Some {| main := main w';
                running := filter (fun d => d ≠ c) (running w');
                killed := killed w'; outbox := outbox w' |}
      else None
  end.

Fixpoint deliver_all (evs : list event) (w : world) : option world :=
  match evs with
  | [] => Some w
  | ev :: rest =>
      match deliver w ev with
      | Some w' => deliver_all rest w'
      | None => None
      end
  end.

Inductive reachable : world -> Prop :=
| reachable_initial : reachable initial
| reachable_deliver w ev w' :
    reachable w -> deliver w ev = Some w' -> reachable w'.

(** The children the handle designates that are alive and were not
    told to die. *)
Definition live (w : world) (c : nat) : Prop :=
  c ∈ running w ∧ c ∉ killed w.

(** The children the handle designates. *)
Definition held (st : main_state) : list nat :=
  match pythonProcess st with
  | Some c => [c]
  | None => []
  end.

(** What every reachable world satisfies: children are numbered
    below the spawn count, and a handle designates the last child
    spawned, running and not told to die. *)
Definition coherent (w : world) : Prop :=
  (forall c, c ∈ running w -> c < spawned (main w))
  /\ (forall c, c ∈ killed w -> c < spawned (main w))
  /\ (forall c, pythonProcess (main w) = Some c ->
       live w c /\ S c = spawned (main w)).

Definition build_completes (out : list effect) : list build_result :=
  omap (fun e => match e with
                 | Reply (BuildComplete r) => Some r
                 | _ => None
                 end) out.

Definition log_updates (out : list effect) : list string :=
  omap (fun e => match e with
                 | Reply (LogUpdate t) => Some t
                 | _ => None
                 end) out.

Definition spawns (out : list effect) : list nat :=
  omap (fun e => match e with Spawn c => Some c | _ => None end) out.

Definition kills (out : list effect) : list nat :=
  omap (fun e => match e with Kill c => Some c | _ => None end) out.

End Launcher.

(* ================================================================= *)
(** ** The renderer: log classification and build status
       (renderer.js, 144-197 and 372-384) *)

Module Renderer.

Record persona := { class : string; icon : string }.

(** The table in declaration order, the order [Object.entries]
    walks it in. *)
Definition AGENT_PERSONAS : list (string * persona) :=
  [ ("ARCHITECT", {| class := "persona-architect"; icon := "📐" |});
    ("ENGINEER",  {| class := "persona-engineer";  icon := "🔧" |});
    ("REVIEWER",  {| class := "persona-reviewer";  icon := "👁️" |});
    ("DEBUGGER",  {| class := "persona-reviewer";  icon := "🧪" |});
    ("DOCKER",    {| class := "persona-system";    icon := "🐳" |});
    ("SUCCESS",   {| class := "persona-success";   icon := "✅" |});
    ("ERROR",     {| class := "persona-error";     icon := "🚨" |});
    ("SYSTEM",    {| class := "persona-system";    icon := "◈" |});
    ("COMPLETE",  {| class := "persona-success";   icon := "🚀" |});
    ("WISDOM",    {| class := "persona-architect"; icon := "🧠" |}) ].

Definition SYSTEM : persona := {| class := "persona-system"; icon := "◈" |}.

(** The object [classifyLine] returns: a persona and its tag. *)
Record classified := { who : persona; tag : string }.

Definition bracketed (key : string) : string := "[" +:+ key +:+ "]".

Definition mentions (upper : string) (entry : string * persona) : bool :=
  JS.includes (bracketed (fst entry)) upper.

(** The phase stepper updated on the way is a DOM effect and leaves
    the returned object alone. *)
Definition classifyLine (text : string) : classified :=
  let upper := JS.toUpperCase text in
  match List.find (mentions upper) AGENT_PERSONAS with
  | Some (key, p) => {| who := p; tag := key |}
  | None => {| who := SYSTEM; tag := "SYSTEM" |}
  end.

(** The part of the renderer the [build-complete] listener writes. *)
Record build_view := { isBuilding : bool; statusText : string }.

Definition on_build_complete (result : Launcher.build_result) (v : build_view)
  : build_view :=
  let status :=
    if Launcher.aborted result then "ABORTED"
    else if Launcher.success result then "COMPLETE"
    else "FAILED" in
  {| isBuilding := false; statusText := status |}.

End Renderer.

(* ================================================================= *)
(** ** Numbers

    A JavaScript number is a binary64 value.  [Finite q] holds the
    exact rational value of a finite one; the three other values are
    what a division by zero or an overflow produces.  Every
    arithmetic operation rounds its exact result to the nearest
    binary64 value, a tie going to the even significand.  The sign of
    zero is not kept. *)

Module Num.

Inductive number :=
| Finite (q : Q)
| NaN
| PosInfinity
| NegInfinity.

(** A number that went through [Math.round]. *)
Inductive integral :=
| Int (z : Z)
| IntNaN
| IntPosInfinity
| IntNegInfinity.

(** The integer nearest to [a / b], for [0 < b]; a tie goes to the
    even one. *)
Definition round_half_even (a b : Z) : Z :=
  let q := (a / b)%Z in
  match (2 * (a mod b) ?= b)%Z with
  | Lt => q
  | Gt => (q + 1)%Z
  | Eq => if Z.even q then q else (q + 1)%Z
  end.

(** Finite binary64 values are the multiples [m * 2^c] of [2^-1074]
    with [m] below [2^53] and [c] at most 971.  For the magnitude
    [a / b], [c] places the last bit of a 53-bit significand: the
    binary logarithm of [a / b], less 52, counted from -1074 and
    never below it (the subnormal range). *)
Definition ulp_exponent (a b : Z) : Z :=
  Z.max (Z.log2 (a * 2 ^ 1075 / b) - 53) 0.

(** The binary64 value nearest to a rational, infinite from
    [2^1024 - 2^970] on. *)
Definition binary64 (x : Q) : number :=
  let a := Z.abs (Qnum x) in
  let b := Z.pos (Qden x) in
  let c := ulp_exponent a b in
  let m := round_half_even (a * 2 ^ 1074) (b * 2 ^ c) in
  if (2 ^ 2098 <=? m * 2 ^ c)%Z then
    if (0 <? Qnum x)%Z then PosInfinity else NegInfinity
  else Finite ((Z.sgn (Qnum x) * (m * 2 ^ c)) # (2 ^ 1074))%Q.

(** [a / b] on two finite operands. *)
Definition divide (a b : Q) : number :=
  if Qeq_bool b 0 then
    if Qeq_bool a 0 then NaN
    else if Qle_bool 0 a then PosInfinity else NegInfinity
  else binary64 (a / b)%Q.

(** [x * k] for a finite, positive [k]. *)
Definition scale (x : number) (k : Q) : number :=
  match x with
  | Finite q => binary64 (q * k)%Q
  | other => other
  end.

(** [x + y]. *)
Definition add (x y : number) : number :=
  match x, y with
  | Finite a, Finite b => binary64 (a + b)%Q
  | NaN, _ | _, NaN => NaN
  | PosInfinity, NegInfinity | NegInfinity, PosInfinity => NaN
  | PosInfinity, _ | _, PosInfinity => PosInfinity
  | NegInfinity, _ | _, NegInfinity => NegInfinity
  end.

(** [Math.round]: the integer nearest to the value of the number, a
    tie going up. *)
Definition Math_round (x : number) : integral :=
  match x with
  | Finite q => Int (Qfloor (q + (1 # 2))%Q)
  | NaN => IntNaN
  | PosInfinity => IntPosInfinity
  | NegInfinity => IntNegInfinity
  end.

Definition show_integral (x : integral) : string :=
  match x with
  | Int z => JS.show_Z z
  | IntNaN => "NaN"
  | IntPosInfinity => "Infinity"
  | IntNegInfinity => "-Infinity"
  end.

Definition two_digits (z : Z) : string :=
  if (z <? 10)%Z then "0" +:+ JS.show_Z z else JS.show_Z z.

(** The digits of [x.toFixed(2)] for a finite [x] below [1e21] in
    magnitude: the sign is set aside, the hundredths of the value are
    rounded with a tie going away from zero. *)
Definition fixed2 (x : Q) : string :=
  let mag := Qabs x in
  let n := Qfloor (mag * 100 + (1 # 2))%Q in
  let body := JS.show_Z (n / 100)%Z +:+ "." +:+ two_digits (n mod 100)%Z in
  if Qle_bool 0 x then body else "-" +:+ body.

(** [x.toFixed(2)]; a finite [x] is taken below [1e21] in magnitude,
    where the method turns to the exponential notation. *)
Definition toFixed2 (x : number) : string :=
  match x with
  | Finite q => fixed2 q
  | NaN => "NaN"
  | PosInfinity => "Infinity"
  | NegInfinity => "-Infinity"
  end.

End Num.

(* ================================================================= *)
(** ** The renderer's dashboard statistics (renderer.js, 449-482) *)

Module Stats.

(** A JSON file next to a project: absent ([fs.existsSync] is false),
    unusable (reading, parsing or reading a field throws inside the
    [try]), or parsed. *)
Inductive json_file (A : Type) :=
| NoFile
| BadFile
| Parsed (content : A).
Arguments NoFile {A}.
Arguments BadFile {A}.
Arguments Parsed {A} content.

(** The fields of [project_manifest.json] the dashboard reads;
    [None] is a field that is missing or falsy, [success] is the
    truthiness of the field. *)
Record manifest := {
  files_written : option Z;
  status : option string;
  success : bool
}.

(** A directory entry of [output/]; [total_cost] is [None] when the
    cost report has no truthy such field. *)
Record project := {
  name : string;
  cost_report : json_file (option Q);
  project_manifest : json_file manifest
}.

Record totals := {
  totalFiles : Z;
  totalCost : Num.number;
  successfulBuilds : nat
}.

Definition is_successful (m : manifest) : bool :=
  match status m with
  | Some st => String.eqb st "COMPLETE" || success m
  | None => success m
  end.

(** The body of [projects.forEach]; the cost a report holds is the
    number its literal denotes. *)
Definition visit (t : totals) (proj : project) : totals :=
  let cost :=
    match cost_report proj with
    | Parsed (Some c) => Num.add (totalCost t) (Num.binary64 c)
    | _ => totalCost t
    end in
  match project_manifest proj with
  | Parsed m =>
      {| totalFiles := (totalFiles t + default 0 (files_written m))%Z;
         totalCost := cost;
         successfulBuilds :=
           if is_successful m then S (successfulBuilds t) else successfulBuilds t |}
  | _ =>
      {| totalFiles := totalFiles t; totalCost := cost;
         successfulBuilds := successfulBuilds t |}
  end.

Definition tally (projects : list project) : totals :=
  fold_left visit projects
    {| totalFiles := 0; totalCost := Num.Finite 0; successfulBuilds := 0 |}.

(** The four text nodes the function writes. *)
Record dash_view := {
  dashTotalProjects : string;
  dashTotalFiles : string;
  dashTotalCost : string;
  dashSuccessRate : string
}.

(** The last line of [refreshDashboard].  Both counts are below
    [2^32], the bound on the length of an array, and hence numbers
    as they stand. *)
Definition success_rate (successful n : nat) : string :=
  if Nat.ltb 0 n then
    Num.show_integral
      (Num.Math_round
         (Num.scale (Num.divide (inject_Z (Z.of_nat successful))
                                (inject_Z (Z.of_nat n))) 100))
    +:+ "%"
  else "0%".

(** The rate in the words of the specification, [round(100 * s / n)]
    on exact rationals with a tie going up, and the counts at which
    [100 * s / n] lies half-way between two integers. *)
Definition claimed_rate (s n : Z) : Z :=
  Qfloor (inject_Z (100 * s) / inject_Z n + (1 # 2))%Q.

Definition half_way (s n : Z) : bool :=
  ((200 * s) mod (2 * n) =? n)%Z.

(** [output] is [None] when the output directory does not exist, and
    otherwise lists its sub-directories. *)
Definition refreshDashboard (output : option (list project)) (v : dash_view)
  : dash_view :=
  match output with
  | None => v
  | Some projects =>
      let t := tally projects in
      {| dashTotalProjects := JS.show_Z (Z.of_nat (length projects));
         dashTotalFiles := JS.show_Z (totalFiles t);
         dashTotalCost := "$" +:+ Num.toFixed2 (totalCost t);
         dashSuccessRate := success_rate (successfulBuilds t) (length projects) |}
  end.

End Stats.

(* ================================================================= *)
(** ** The warehouse backend behind [/low-stock] *)

Module Backend.

(** A row of the Products table. *)
Record product := {
  id : Z;
  sku : string;
  current_stock : Z;
  initial_capacity : Z
}.

(** Modelled from the spec: the FastAPI handler of [/low-stock] is
    not among the sources; the rule is the one the spec, the README
    and the comment above [getLowStock] give, "current_stock < 0.1 x
    initial_capacity", read over the rationals. *)
Definition is_low_stock (p : product) : bool :=
  match (inject_Z (current_stock p) ?= (1 # 10) * inject_Z (initial_capacity p))%Q with
  | Lt => true
  | _ => false
  end.

(** Modelled from the spec: the endpoint answers with the products
    under the threshold, and with [[]] when there is none. *)
Definition low_stock (db : list product) : list product :=
  List.filter is_low_stock db.

End Backend.

(* ================================================================= *)
(** ** JSON values, [fetch] and completions *)

Module Json.

#[warnings="-register-all"]
Inductive json :=
| JNull
| JBool (b : bool)
| JNum (q : Q)
| JStr (s : string)
| JArr (items : list json)
| JObj (fields : list (string * json)).

Definition isArray (v : json) : bool :=
  match v with JArr _ => true | _ => false end.

(** How an awaited expression or a function call ends. *)
Inductive completion (A : Type) :=
| Return (a : A)
| Throw (message : string).
Arguments Return {A} a.
Arguments Throw {A} message.

(** What [await fetch(url)] yields: a rejection, or a response with
    its [ok] flag, status line and the completion of [res.json()]. *)
Inductive fetched :=
| Rejected (message : string)
| Response (ok : bool) (status : Z) (statusText : string) (body : completion json).

End Json.

(* ================================================================= *)
(** ** The API client (frontend/src/lib/api.js) *)

Module Api.
Import Json.

(** [fetchAPI]: the [catch] block logs to the console and throws the
    error again. *)
Definition fetchAPI (r : fetched) : completion json :=
  let attempt :=
    match r with
    | Rejected message => Throw message
    | Response ok status statusText body =>
        if negb ok then
          Throw ("API error: " +:+ JS.show_Z status +:+ " " +:+ statusText)
        else body
    end in
  match attempt with
  | Return v => Return v
  | Throw error => Throw error
  end.

Definition getLowStock (r : fetched) : completion json := fetchAPI r.

End Api.

(* ================================================================= *)
(** ** Effects with an interval timer ([useEffect] of the page and of
       the StockAlert panel) *)

Module Effect.

Inductive call :=
| SetInterval (timer : nat) (ms : Z)
| ClearInterval (timer : nat)
| Refresh.

#[export] Instance call_eq_dec : EqDecision call.
Proof. solve_decision. Defined.

(** The host's timers: the intervals that are armed, the next timer
    id, and the calls made so far, oldest first. *)
Record host := {
  armed : list (nat * Z);
  next_timer : nat;
  calls : list call
}.

Definition setInterval (ms : Z) (h : host) : nat * host :=
  (next_timer h,
   {| armed := (next_timer h, ms) :: armed h;
      next_timer := S (next_timer h);
      calls := calls h ++ [SetInterval (next_timer h) ms] |}).

Definition clearInterval (timer : nat) (h : host) : host :=
  {| armed := filter (fun t => fst t ≠ timer) (armed h);
     next_timer := next_timer h;
     calls := calls h ++ [ClearInterval timer] |}.

Definition refresh (h : host) : host :=
  {| armed := armed h; next_timer := next_timer h; calls := calls h ++ [Refresh] |}.

(** The effect both components declare: refresh at once, arm an
    interval of 30000 ms, hand back the cleanup, which closes over
    the interval. *)
Definition run_effect (h : host) : nat * host :=
  setInterval 30000 (refresh h).

Definition run_cleanup (interval : nat) (h : host) : host :=
  clearInterval interval h.

Section Component.
Context {D : Type} `{EqDecision D}.

(** A component instance: the dependencies of its last render and
    the interval its pending cleanup closes over; [None] while it is
    not mounted. *)
Definition instance : Type := option (D * nat).

Inductive lifecycle :=
| Mount (deps : D)
| Render (deps : D)
| Unmount
| Tick (timer : nat).

(** React runs the effect after mounting, the cleanup followed by
    the effect when a dependency changed, the cleanup on unmounting.
    The host fires only armed intervals. *)
Definition react (ev : lifecycle) (st : instance * host) : option (instance * host) :=
  let '(c, h) := st in
  match ev, c with
  | Mount deps, None =>
      let '(interval, h') := run_effect h in Some (Some (deps, interval), h')
  | Render deps, Some (old, interval) =>
      if decide (deps = old) then Some (c, h)
      else let '(interval', h') := run_effect (run_cleanup interval h) in
           Some (Some (deps, interval'), h')
  | Unmount, Some (_, interval) => Some (None, run_cleanup interval h)
  | Tick timer, _ =>
      if bool_decide (timer ∈ (armed h).*1) then Some (c, refresh h) else None
  | _, _ => None
  end.

Fixpoint run (evs : list lifecycle) (st : instance * host) : option (instance * host) :=
  match evs with
  | [] => Some st
  | ev :: rest =>
      match react ev st with
      | Some st' => run rest st'
      | None => None
      end
  end.

Definition start : instance * host :=
  (None, {| armed := []; next_timer := 0; calls := [] |}).

Definition is_unmount (ev : lifecycle) : bool :=
  match ev with Unmount => true | _ => false end.

Definition passes (deps : D) (ev : lifecycle) : Prop :=
  match ev with
  | Mount d | Render d => d = deps
  | _ => True
  end.

(** The interval the pending cleanup will clear. *)
Definition pending (c : instance) : list nat :=
  match c with
  | Some (_, interval) => [interval]
  | None => []
  end.

Definition unmounts (evs : list lifecycle) : nat :=
  length (List.filter is_unmount evs).

End Component.

Arguments instance D : clear implicits.
Arguments lifecycle D : clear implicits.

Definition cleared (timer : nat) (cs : list call) : nat :=
  length (filter (fun c => c = ClearInterval timer) cs).

Definition is_clear (c : call) : bool :=
  match c with ClearInterval _ => true | _ => false end.

Definition clears (cs : list call) : nat :=
  length (List.filter is_clear cs).

(** The bookkeeping every run keeps: only the pending interval is
    armed; timers are numbered below [next_timer]; a timer was
    cleared once, unless it is the pending one or not yet created. *)
Definition tidy {D} (st : instance D * host) : Prop :=
  armed st.2 = map (fun i => (i, 30000%Z)) (pending st.1)
  /\ (forall timer ms,
        SetInterval timer ms ∈ calls st.2 -> ms = 30000%Z /\ timer < next_timer st.2)
  /\ (forall timer,
        timer ∈ pending st.1 -> timer < next_timer st.2 /\ cleared timer (calls st.2) = 0)
  /\ (forall timer,
        timer < next_timer st.2 -> timer ∉ pending st.1 -> cleared timer (calls st.2) = 1)
  /\ (forall timer, next_timer st.2 <= timer -> cleared timer (calls st.2) = 0).

(** What the claim asks of a run that ends in [st]. *)
Definition timers_ok {D} (evs : list (lifecycle D)) (st : instance D * host) : Prop :=
  (forall timer ms, SetInterval timer ms ∈ calls st.2 -> ms = 30000%Z)
  /\ (forall timer ms,
        SetInterval timer ms ∈ calls st.2 ->
        cleared timer (calls st.2) = if bool_decide (timer ∈ pending st.1) then 0 else 1)
  /\ armed st.2 = map (fun i => (i, 30000%Z)) (pending st.1)
  /\ clears (calls st.2) = unmounts evs.

End Effect.

(* ================================================================= *)
(** ** The StockAlert panel *)

Module StockAlert.
Import Json.

Record panel := {
  alerts : list json;
  loading : bool;
  error : option string
}.

(** The [try] block of [fetchLowStock] after the two first setters. *)
Definition attempt (r : fetched) : completion (list json) :=
  match r with
  | Rejected message => Throw message
  | Response ok status _ body =>
      if negb ok then Throw ("API returned " +:+ JS.show_Z status)
      else match body with
           | Return data =>
               match data with
               | JArr items => Return items
               | _ => Return []
               end
           | Throw message => Throw message
           end
  end.

(** [fetchLowStock]: the state once the setters of the [try], of the
    [catch] and of the [finally] block are applied in order. *)
Definition fetchLowStock (r : fetched) (st : panel) : completion panel :=
  let st1 := {| alerts := alerts st; loading := true; error := None |} in
  let st2 :=
    match attempt r with
    | Return items =>
        {| alerts := items; loading := loading st1; error := error st1 |}
    | Throw message =>
        {| alerts := []; loading := loading st1; error := Some message |}
    end in
  Return {| alerts := alerts st2; loading := false; error := error st2 |}.

(** The panel's effect depends on [fetchLowStock], whose identity
    follows the [apiUrl] prop. *)
Definition lifecycle := Effect.lifecycle string.

End StockAlert.

(* ================================================================= *)
(** ** The dashboard page *)

Module Dashboard.

(** [fetchDashboardData] is memoised without dependencies, so the
    effect never sees a change. *)
Definition lifecycle := Effect.lifecycle unit.

(** The module constant the page passes to
    [<StockAlert apiUrl={API_BASE} />]: the environment variable
    [NEXT_PUBLIC_API_URL] when it is set and not empty. *)
Definition API_BASE (NEXT_PUBLIC_API_URL : option string) : string :=
  match NEXT_PUBLIC_API_URL with
  | Some url => if JS.truthy url then url else "http://localhost:8000"
  | None => "http://localhost:8000"
  end.

End Dashboard.

(* ================================================================= *)
(** ** The product table *)

Module ProductTable.
Import Json.

(** The scalar a column of a product holds. *)
Inductive value :=
| VNull
| VBool (b : bool)
| VNum (q : Q)
| VStr (s : string).

(** A product: an object, as its own properties.  A property that
    is absent reads as [undefined], here [None]. *)
Definition product : Type := list (string * value).

Fixpoint get (o : product) (key : string) : option value :=
  match o with
  | [] => None
  | (k, v) :: rest => if String.eqb k key then Some v else get rest key
  end.

(** Arrays live in a heap and are passed by reference. *)
Inductive prop :=
| NotArray
| ArrayRef (addr : nat).

Definition alloc (arr : list product) (h : gmap nat (list product))
  : nat * gmap nat (list product) :=
  let addr := fresh (dom h) in (addr, <[addr := arr]> h).

Section Sorting.

(** The conversion of a string to a number, [None] for [NaN]. *)
Variable StringToNumber : string -> option Q.

Definition ToNumber (v : option value) : option Q :=
  match v with
  | None => None
  | Some VNull => Some 0%Q
  | Some (VBool b) => Some (if b then 1%Q else 0%Q)
  | Some (VNum q) => Some q
  | Some (VStr s) => StringToNumber s
  end.

(** [a < b]: two strings compare by code units, anything else as
    numbers, [NaN] comparing false. *)
Definition lessThan (a b : option value) : bool :=
  match a, b with
  | Some (VStr x), Some (VStr y) => String.ltb x y
  | _, _ =>
      match ToNumber a, ToNumber b with
      | Some p, Some q => negb (Qle_bool q p)
      | _, _ => false
      end
  end.

Definition lowered (v : option value) : option value :=
  match v with
  | Some (VStr s) => Some (VStr (JS.toLowerCase s))
  | other => other
  end.

(** The comparator handed to [sort]. *)
Definition comparator (sortField sortDir : string) (a b : product) : Z :=
  let aVal := lowered (get a sortField) in
  let bVal := lowered (get b sortField) in
  if lessThan aVal bVal then (if String.eqb sortDir "asc" then -1 else 1)%Z
  else if lessThan bVal aVal then (if String.eqb sortDir "asc" then 1 else -1)%Z
  else 0%Z.

(** [Array.prototype.sort]: the language leaves the algorithm to the
    engine and asks for stability; a stable insertion sort stands
    for it. *)
Fixpoint insert (cmp : product -> product -> Z) (x : product) (l : list product)
  : list product :=
  match l with
  | [] => [x]
  | y :: rest => if (cmp x y <=? 0)%Z then x :: y :: rest else y :: insert cmp x rest
  end.

Definition sort (cmp : product -> product -> Z) (l : list product) : list product :=
  foldr (insert cmp) [] l.

(** The [useMemo] callback: [[...products]] allocates a copy, [sort]
    sorts the copy in place and returns it; a non-array gives a new
    empty array. *)
Definition sorted (h : gmap nat (list product)) (products : prop)
    (sortField sortDir : string) : nat * gmap nat (list product) :=
  match products with
  | NotArray => alloc [] h
  | ArrayRef addr =>
      let '(copy, h1) := alloc (default [] (h !! addr)) h in
      (copy, alter (sort (comparator sortField sortDir)) copy h1)
  end.

End Sorting.

(** The price cell: [product.unit_price?.toFixed(2) ?? '0.00'] after
    a dollar sign.  A value that is neither missing nor a number has
    no [toFixed] method; a price is the number its literal denotes. *)
Definition price_cell (p : product) : completion string :=
  match get p "unit_price" with
  | None | Some VNull => Return "$0.00"
  | Some (VNum q) => Return ("$" +:+ Num.toFixed2 (Num.binary64 q))
  | Some _ => Throw "product.unit_price?.toFixed is not a function"
  end.

End ProductTable.

(* ================================================================= *)
(** ** More string primitives *)

Module Text.

(** [s.split(/[...]/)] for a class of one-character separators. *)
Fixpoint splitBy (sep : ascii -> bool) (s : string) : list string :=
  match s with
  | EmptyString => [EmptyString]
  | String c r =>
      if sep c then EmptyString :: splitBy sep r
      else match splitBy sep r with
           | seg :: segs => String c seg :: segs
           | [] => [String c EmptyString]
           end
  end.

Fixpoint occurs (c : ascii) (s : string) : bool :=
  match s with
  | EmptyString => false
  | String d r => Ascii.eqb d c || occurs c r
  end.

Fixpoint all_chars (p : ascii -> bool) (s : string) : bool :=
  match s with
  | EmptyString => true
  | String c r => p c && all_chars p r
  end.

Fixpoint takeWhile (p : ascii -> bool) (s : string) : string :=
  match s with
  | EmptyString => EmptyString
  | String c r => if p c then String c (takeWhile p r) else EmptyString
  end.

(** The characters [.] does not match: line feed and carriage
    return. *)
Definition is_line_end (c : ascii) : bool :=
  (Ascii.eqb c "010" || Ascii.eqb c "013")%bool.

(** Does a ["]"] come before the end of the line. *)
Fixpoint closes (s : string) : bool :=
  match s with
  | EmptyString => false
  | String c r =>
      if Ascii.eqb c "]" then true
      else if is_line_end c then false
      else closes r
  end.

(** [s.replace(/\[.*?\]/g, '')], read left to right: an opening
    bracket that is closed on its line starts a match, which runs to
    the first closing bracket; [inside] tells whether a match is under
    way. *)
Fixpoint strip_from (inside : bool) (s : string) : string :=
  match s with
  | EmptyString => EmptyString
  | String c r =>
      if inside then
        if Ascii.eqb c "]" then strip_from false r else strip_from true r
      else if (Ascii.eqb c "[" && closes r)%bool then strip_from true r
      else String c (strip_from false r)
  end.

Definition strip_tags (s : string) : string := strip_from false s.

(** Is there a place where [/\[.*?\]/] matches. *)
Fixpoint has_tag (s : string) : bool :=
  match s with
  | EmptyString => false
  | String c r => (Ascii.eqb c "[" && closes r) || has_tag r
  end.

Definition is_digit_or_dot (c : ascii) : bool :=
  let n := nat_of_ascii c in
  ((Nat.leb 48 n && Nat.leb n 57) || Nat.eqb n 46)%bool.

(** [text.match(/\$[\d.]+/)]: the first dollar sign that a digit or
    a dot follows, with the longest run of digits and dots. *)
Fixpoint match_cost (s : string) : option string :=
  match s with
  | EmptyString => None
  | String c r =>
      if (Ascii.eqb c "$" && JS.truthy (takeWhile is_digit_or_dot r))%bool
      then Some (String c (takeWhile is_digit_or_dot r))
      else match_cost r
  end.

End Text.

(* ================================================================= *)
(** ** The build request: from the form to the command line
       (renderer.js, 300-341 and 665-751) *)

Module BuildRequest.

(** The values a request carries; a key that is absent reads as
    [undefined], here [None]. *)
Inductive value :=
| Str (s : string)
| Bool (b : bool).

Definition truthy (v : option value) : bool :=
  match v with
  | Some (Str s) => JS.truthy s
  | Some (Bool b) => b
  | None => false
  end.

(** The controls the click handler of the build button reads. *)
Record form := {
  projectName : string;
  promptInput : string;
  mode : string;
  scale : string;
  platform : string;
  model : string;
  phase : string;
  budgetId : string;
  fixCycles : string;
  sourcePath : string;
  focus : string;
  proModeToggle : bool;
  optDocker : bool;
  optReadme : bool;
  optDebug : bool;
  optSetup : bool;
  optVoice : bool;
  optNoBundle : bool;
  optClean : bool;
  optDecompile : bool;
  archModel : string;
  engModel : string;
  reviewModel : string;
  localModel : string
}.

Definition or_else (s fallback : string) : string :=
  if JS.truthy s then s else fallback.

(** The object literal sent on the [start-build] channel. *)
Definition payload (f : form) : gmap string value :=
  let isManual := proModeToggle f in
  list_to_map
    [ ("projectName", Str (or_else (JS.trim (projectName f)) "GeneratedApp"));
      ("prompt", Str (JS.trim (promptInput f)));
      ("mode", Str (mode f));
      ("scale", Str (if isManual then scale f else "auto"));
      ("platform", Str (if isManual then platform f else "auto"));
      ("model", Str (if isManual then model f else "auto"));
      ("phase", Str (if isManual then phase f else "auto"));
      ("budget", Str (budgetId f));
      ("fixCycles", Str (fixCycles f));
      ("sourcePath", Str (JS.trim (sourcePath f)));
      ("focus", Str (JS.trim (focus f)));
      ("enableDocker", Bool (optDocker f));
      ("enableReadme", Bool (optReadme f));
      ("enableDebug", Bool (optDebug f));
      ("enableSetup", Bool (optSetup f));
      ("enableVoice", Bool (optVoice f));
      ("noBundle", Bool (optNoBundle f));
      ("enableClean", Bool (optClean f));
      ("enableDecompile", Bool (optDecompile f));
      ("archModel", Str (if isManual then archModel f else ""));
      ("engModel", Str (if isManual then engModel f else ""));
      ("reviewModel", Str (if isManual then reviewModel f else ""));
      ("localModel", Str (if isManual then localModel f else "")) ].

Definition localModelPrefixes : list string :=
  ["deepseek"; "codellama"; "qwen"; "phi"; "starcoder"; "wizardcoder"].
Definition cloudApiPrefixes : list string :=
  ["llama-"; "gemma"; "mixtral"; "gemini"].

Definition isCloudApi (model : string) : bool :=
  existsb (fun prefix => JS.startsWith prefix (JS.toLowerCase model)) cloudApiPrefixes.

Definition isLocalModel (model : string) : bool :=
  negb (isCloudApi model)
  && existsb (fun prefix => JS.startsWith prefix (JS.toLowerCase model)) localModelPrefixes.

Section Args.

(** The two script paths [path.join(__dirname, ...)] gives. *)
Variables local_overlord_py agent_brain_py : string.

(** [if (x) args.push(flag, x)] and [if (x) args.push(flag)]. *)
Definition with_value (flag : string) (v : option value) : list (option value) :=
  if truthy v then [Some (Str flag); v] else [].
Definition with_flag (flag : string) (v : option value) : list (option value) :=
  if truthy v then [Some (Str flag)] else [].

(** The argument vector handed to [spawn], or the [TypeError] of
    [model.toLowerCase()] when the request carries no model string. *)
Definition build_args (req : gmap string value) : Json.completion (list (option value)) :=
  match req !! "model" with
  | Some (Str model) =>
      if isLocalModel model then
        Json.Return [Some (Str local_overlord_py); req !! "projectName";
                     req !! "prompt"; Some (Str "--model"); Some (Str model)]
      else
        Json.Return
          ([Some (Str agent_brain_py);
            Some (Str "--project"); req !! "projectName";
            Some (Str "--prompt"); req !! "prompt";
            Some (Str "--model"); Some (Str (or_else model "gpt-4o"))]
           ++ with_value "--budget" (req !! "budget")
           ++ with_value "--scale" (req !! "scale")
           ++ with_value "--platform" (req !! "platform")
           ++ with_value "--mode" (req !! "mode")
           ++ with_value "--max-fix-cycles" (req !! "fixCycles")
           ++ with_value "--source" (req !! "sourcePath")
           ++ with_value "--phase" (req !! "phase")
           ++ with_value "--focus" (req !! "focus")
           ++ with_flag "--docker" (req !! "enableDocker")
           ++ with_flag "--readme" (req !! "enableReadme")
           ++ with_flag "--debug" (req !! "enableDebug")
           ++ with_flag "--setup" (req !! "enableSetup")
           ++ with_flag "--voice" (req !! "enableVoice")
           ++ with_flag "--no-bundle" (req !! "enableNoBundle")
           ++ with_flag "--clean" (req !! "enableClean")
           ++ with_flag "--decompile" (req !! "enableDecompile")
           ++ with_value "--arch-model" (req !! "archModel")
           ++ with_value "--eng-model" (req !! "engModel")
           ++ with_value "--review-model" (req !! "reviewModel")
           ++ with_value "--local-model" (req !! "localModel"))
  | _ => Json.Throw "model.toLowerCase is not a function"
  end.

End Args.

(** *** The key pool and the child's environment *)

(** [settings.json] as the handlers read it: absent, unusable (the
    read or the parse throws), holding [null], or an object whose
    four key fields are strings or missing. *)
Record settings := {
  openaiKey : option string;
  groqKey : option string;
  geminiKey : option string;
  anthropicKey : option string
}.

Inductive settings_file :=
| NoSettings
| BadSettings
| NullSettings
| Settings (s : settings).

Definition is_key_sep (c : ascii) : bool :=
  (Ascii.eqb c "010" || Ascii.eqb c ",")%bool.

(** [raw.split(/[\n,]/).map(k => k.trim()).filter(k => k.length > 0)]. *)
Definition pool_keys (raw : string) : list string :=
  List.filter JS.truthy (map JS.trim (Text.splitBy is_key_sep raw)).

(** The body of the loop over [keyMap], for one field. *)
Definition add_keys (single pool : string) (field : option string)
    (poolEnv : gmap string string) : gmap string string :=
  match pool_keys (default "" field) with
  | [] => poolEnv
  | [k] => <[single := k]> poolEnv
  | k :: rest => <[pool := JS.join "," (k :: rest)]> (<[single := k]> poolEnv)
  end.

Definition poolEnv (f : settings_file) : gmap string string :=
  match f with
  | Settings s =>
      add_keys "ANTHROPIC_API_KEY" "ANTHROPIC_API_KEYS" (anthropicKey s)
        (add_keys "GEMINI_API_KEY" "GEMINI_API_KEYS" (geminiKey s)
           (add_keys "GROQ_API_KEY" "GROQ_API_KEYS" (groqKey s)
              (add_keys "OPENAI_API_KEY" "OPENAI_API_KEYS" (openaiKey s) ∅)))
  | _ => ∅
  end.

(** [{ ...process.env, ...poolEnv, PYTHONIOENCODING: 'utf-8',
    PYTHONUTF8: '1' }]: a later entry wins. *)
Definition child_env (env : gmap string string) (f : settings_file)
  : gmap string string :=
  <["PYTHONUTF8" := "1"]> (<["PYTHONIOENCODING" := "utf-8"]> (poolEnv f ∪ env)).

(** *** [ipcMain.handle('check-api-keys')] *)

Record key_report := {
  openai : bool;
  gemini : bool;
  anthropic : bool;
  groq : bool
}.

Definition no_settings : settings :=
  {| openaiKey := None; groqKey := None; geminiKey := None; anthropicKey := None |}.

(** [!!(process.env.NAME || settings.field)]; [None] is the
    [TypeError] of reading a field of [null], which the environment
    variable, when it is set, keeps from being evaluated. *)
Definition env_or_field (env : gmap string string) (name : string)
    (s : option settings) (field : settings -> option string) : option bool :=
  if Dotenv.env_truthy env name then Some true
  else match s with
       | Some s => Some (JS.truthy (default "" (field s)))
       | None => None
       end.

(** The report.  A file that does not parse leaves the empty
    object in place; a file that holds [null] makes a field access
    throw, outside of any [try]. *)
Definition check_api_keys (env : gmap string string) (f : settings_file)
  : Json.completion key_report :=
  let s :=
    match f with
    | Settings s => Some s
    | NullSettings => None
    | NoSettings | BadSettings => Some no_settings
    end in
  match env_or_field env "OPENAI_API_KEY" s openaiKey,
        env_or_field env "GEMINI_API_KEY" s geminiKey,
        env_or_field env "ANTHROPIC_API_KEY" s anthropicKey,
        env_or_field env "GROQ_API_KEY" s groqKey with
  | Some o, Some g, Some a, Some q =>
      Json.Return {| openai := o; gemini := g; anthropic := a; groq := q |}
  | _, _, _, _ => Json.Throw "Cannot read properties of null"
  end.

(** The form with another state of the no-bundle checkbox. *)
Definition set_optNoBundle (b : bool) (f : form) : form :=
  {| projectName := projectName f; promptInput := promptInput f; mode := mode f;
     scale := scale f; platform := platform f; model := model f; phase := phase f;
     budgetId := budgetId f; fixCycles := fixCycles f; sourcePath := sourcePath f;
     focus := focus f; proModeToggle := proModeToggle f; optDocker := optDocker f;
     optReadme := optReadme f; optDebug := optDebug f; optSetup := optSetup f;
     optVoice := optVoice f; optNoBundle := b; optClean := optClean f;
     optDecompile := optDecompile f; archModel := archModel f;
     engModel := engModel f; reviewModel := reviewModel f;
     localModel := localModel f |}.

(** Two forms that differ at most in the controls of the Pro
    panel. *)
Definition same_basic_controls (f g : form) : Prop :=
  projectName f = projectName g /\ promptInput f = promptInput g
  /\ mode f = mode g /\ budgetId f = budgetId g /\ fixCycles f = fixCycles g
  /\ sourcePath f = sourcePath g /\ focus f = focus g
  /\ optDocker f = optDocker g /\ optReadme f = optReadme g
  /\ optDebug f = optDebug g /\ optSetup f = optSetup g
  /\ optVoice f = optVoice g /\ optNoBundle f = optNoBundle g
  /\ optClean f = optClean g /\ optDecompile f = optDecompile g.

End BuildRequest.

(* ================================================================= *)
(** ** The renderer's build panel and log listener
       (renderer.js, 199-205, 264-384) *)

Module BuildPanel.

(** The message [appendLog] types into the console: the line
    without its bracketed tags, or three dots when nothing is left. *)
Definition cleanMsg (text : string) : string :=
  let cleaned := JS.trim (Text.strip_tags text) in
  if JS.truthy cleaned then cleaned
  else BuildRequest.or_else (Text.strip_tags text) "...".

Inductive message :=
| SendStartBuild (request : gmap string BuildRequest.value)
| SendCancelBuild.

(** The variables and controls the listeners share; [clock] holds
    the intervals of the window, [sent] the messages sent to the main
    process, oldest first. *)
Record panel := {
  isBuilding : bool;
  buildTimer : option nat;
  fileCount : nat;
  statusText : string;
  liveCost : string;
  btnBuildDisabled : bool;
  btnCancelDisabled : bool;
  clock : Effect.host;
  sent : list message
}.

(** [setBuilding(true)]. *)
Definition start_building (p : panel) : panel :=
  let '(timer, clock') := Effect.setInterval 1000 (clock p) in
  {| isBuilding := true; buildTimer := Some timer; fileCount := 0;
     statusText := "RUNNING"; liveCost := "$0.00";
     btnBuildDisabled := true; btnCancelDisabled := false;
     clock := clock'; sent := sent p |}.

(** [setBuilding(false)]; clearing [null] does nothing. *)
Definition stop_building (p : panel) : panel :=
  {| isBuilding := false; buildTimer := buildTimer p; fileCount := fileCount p;
     statusText := statusText p; liveCost := liveCost p;
     btnBuildDisabled := false; btnCancelDisabled := true;
     clock := match buildTimer p with
              | Some timer => Effect.clearInterval timer (clock p)
              | None => clock p
              end;
     sent := sent p |}.

Definition send (m : message) (p : panel) : panel :=
  {| isBuilding := isBuilding p; buildTimer := buildTimer p;
     fileCount := fileCount p; statusText := statusText p; liveCost := liveCost p;
     btnBuildDisabled := btnBuildDisabled p; btnCancelDisabled := btnCancelDisabled p;
     clock := clock p; sent := sent p ++ [m] |}.

(** The click listener of the build button. *)
Definition click_build (f : BuildRequest.form) (p : panel) : panel :=
  if isBuilding p then p
  else if negb (JS.truthy (JS.trim (BuildRequest.promptInput f))) then p
  else send (SendStartBuild (BuildRequest.payload f)) (start_building p).

(** The click listener of the cancel button. *)
Definition click_cancel (p : panel) : panel :=
  if negb (isBuilding p) then p else send SendCancelBuild p.

Definition mentions_cost (upper : string) : bool :=
  JS.includes "COST:" upper || JS.includes "BUDGET:" upper.

Definition is_written (text : string) : bool :=
  JS.includes "✓" (JS.toUpperCase text) && JS.includes "WRITTEN" (JS.toUpperCase text).

Definition looks_verified (upper : string) : bool :=
  JS.includes "COMPLETE" upper || JS.includes "SUCCESS" upper
  || JS.includes "VERIFIED" upper.

Definition looks_broken (upper : string) : bool :=
  JS.includes "[ERROR]" upper || JS.includes "[CRITICAL]" upper
  || JS.includes "[FATAL]" upper.

(** The [log-update] listener, after [appendLog]. *)
Definition on_log_update (text : string) (p : panel) : panel :=
  let upper := JS.toUpperCase text in
  {| isBuilding := isBuilding p; buildTimer := buildTimer p;
     fileCount := if is_written text then S (fileCount p) else fileCount p;
     statusText := if looks_verified upper then "VERIFIED"
                   else if looks_broken upper then "ISSUE DETECTED"
                   else statusText p;
     liveCost := if mentions_cost upper
                 then default (liveCost p) (Text.match_cost text)
                 else liveCost p;
     btnBuildDisabled := btnBuildDisabled p; btnCancelDisabled := btnCancelDisabled p;
     clock := clock p; sent := sent p |}.

(** The [build-complete] listener; the phase stepper and the file
    tree it refreshes on success are not part of the panel. *)
Definition on_build_complete (result : Launcher.build_result) (p : panel) : panel :=
  let q := stop_building p in
  {| isBuilding := isBuilding q; buildTimer := buildTimer q;
     fileCount := fileCount q;
     statusText :=
       Renderer.statusText
         (Renderer.on_build_complete result
            {| Renderer.isBuilding := isBuilding p;
               Renderer.statusText := statusText p |});
     liveCost := liveCost q;
     btnBuildDisabled := btnBuildDisabled q; btnCancelDisabled := btnCancelDisabled q;
     clock := clock q; sent := sent q |}.

Inductive event :=
| ClickBuild (f : BuildRequest.form)
| ClickCancel
| LogUpdate (text : string)
| BuildComplete (result : Launcher.build_result).

Definition handle (p : panel) (ev : event) : panel :=
  match ev with
  | ClickBuild f => click_build f p
  | ClickCancel => click_cancel p
  | LogUpdate text => on_log_update text p
  | BuildComplete result => on_build_complete result p
  end.

Definition is_start (m : message) : bool :=
  match m with SendStartBuild _ => true | SendCancelBuild => false end.

Definition is_complete (ev : event) : bool :=
  match ev with BuildComplete _ => true | _ => false end.

(** A window that was just loaded: no build, no timer variable, no
    interval armed; what the page shows is left open. *)
Definition fresh (p : panel) : Prop :=
  isBuilding p = false /\ buildTimer p = None /\ fileCount p = 0
  /\ Effect.armed (clock p) = [] /\ sent p = [].

Definition run (evs : list event) (p : panel) : panel := fold_left handle evs p.

(** The interval of the elapsed-time display is armed exactly while
    a build is shown as running, and it is the one [buildTimer]
    holds. *)
Definition timer_ok (p : panel) : Prop :=
  match buildTimer p with
  | Some t =>
      t < Effect.next_timer (clock p)
      /\ Effect.armed (clock p) = (if isBuilding p then [(t, 1000%Z)] else [])
  | None => isBuilding p = false /\ Effect.armed (clock p) = []
  end.

Definition starts (p : panel) : nat := length (List.filter is_start (sent p)).

Definition has_prompt (m : message) : Prop :=
  match m with
  | SendStartBuild request =>
      exists prompt, request !! "prompt" = Some (BuildRequest.Str prompt)
                     /\ JS.truthy prompt = true
  | SendCancelBuild => True
  end.

(** What the panel keeps true, given the completions received. *)
Definition panel_inv (completions : nat) (p : panel) : Prop :=
  timer_ok p
  /\ starts p <= completions + (if isBuilding p then 1 else 0)
  /\ Forall has_prompt (sent p).

End BuildPanel.

(* ================================================================= *)
(** ** The page's data, the alert panel's view, the table's header
       and stock bar *)

Module DashboardPage.
Import Json.

Record page := {
  products : list json;
  analytics : option json;
  loading : bool;
  seeding : bool;
  error : option string
}.

(** The [try] block of [fetchDashboardData]: both requests must be
    answered, then both answers must be fine, then both bodies must
    parse, in this order; of two rejections the one of [/products]
    stands for the one that comes first. *)
Definition attempt (rp ra : fetched) : completion (json * json) :=
  match rp, ra with
  | Rejected message, _ => Throw message
  | _, Rejected message => Throw message
  | Response okp _ _ bodyp, Response oka _ _ bodya =>
      if (negb okp || negb oka)%bool then Throw "Failed to fetch dashboard data"
      else match bodyp with
           | Throw message => Throw message
           | Return productsData =>
               match bodya with
               | Throw message => Throw message
               | Return analyticsData => Return (productsData, analyticsData)
               end
           end
  end.

(** [fetchDashboardData], as the state after its setters. *)
Definition fetchDashboardData (rp ra : fetched) (st : page) : page :=
  match attempt rp ra with
  | Return (productsData, analyticsData) =>
      {| products := match productsData with JArr items => items | _ => [] end;
         analytics := Some analyticsData;
         loading := false; seeding := seeding st; error := None |}
  | Throw message =>
      {| products := products st; analytics := analytics st;
         loading := false; seeding := seeding st; error := Some message |}
  end.

(** [handleSeed]: the refresh runs only after a seed request that
    was answered fine; a failure is logged to the console and falls
    through to the [finally] block. *)
Definition handleSeed (rs rp ra : fetched) (st : page) : page :=
  let refreshed :=
    match rs with
    | Response true _ _ _ => fetchDashboardData rp ra st
    | _ => st
    end in
  {| products := products refreshed; analytics := analytics refreshed;
     loading := loading refreshed; seeding := false; error := error refreshed |}.

End DashboardPage.

Module AlertView.
Import Json.

(** The four things the StockAlert panel can render. *)
Inductive view :=
| Loading
| ErrorPanel (message : string)
| LowStock (items : list json)
| AllClear.

Definition render (p : StockAlert.panel) : view :=
  if StockAlert.loading p then Loading
  else match StockAlert.error p with
       | Some (String c r) => ErrorPanel (String c r)
       | _ =>
           match StockAlert.alerts p with
           | [] => AllClear
           | items => LowStock items
           end
       end.

(** The panel once [fetchLowStock] has run. *)
Definition refreshed (r : fetched) (p : StockAlert.panel) : StockAlert.panel :=
  match StockAlert.fetchLowStock r p with
  | Return p' => p'
  | Throw _ => p
  end.

End AlertView.

Module TableHeader.

(** [sortField] and [sortDir] of the product table. *)
Record sorting := { sortField : string; sortDir : string }.

Definition initial : sorting := {| sortField := "name"; sortDir := "asc" |}.

(** [handleSort]. *)
Definition handleSort (st : sorting) (field : string) : sorting :=
  if String.eqb (sortField st) field then
    {| sortField := sortField st;
       sortDir := if String.eqb (sortDir st) "asc" then "desc" else "asc" |}
  else {| sortField := field; sortDir := "asc" |}.

(** The readings of a numeric column. *)
Definition numeric (field : string) (p : ProductTable.product) : Prop :=
  exists q, ProductTable.get p field = Some (ProductTable.VNum q).

Definition reading (field : string) (p : ProductTable.product) : Q :=
  match ProductTable.get p field with
  | Some (ProductTable.VNum q) => q
  | _ => 0%Q
  end.

(** The order a direction asks for. *)
Definition in_order (field sortDir : string) (a b : ProductTable.product) : Prop :=
  if String.eqb sortDir "asc" then (reading field a <= reading field b)%Q
  else (reading field b <= reading field a)%Q.

End TableHeader.

(* ================================================================= *)
(** ** What one project adds to the dashboard totals *)

Module Contribution.

Definition files (proj : Stats.project) : Z :=
  match Stats.project_manifest proj with
  | Stats.Parsed m => default 0%Z (Stats.files_written m)
  | _ => 0%Z
  end.

Definition successes (proj : Stats.project) : nat :=
  match Stats.project_manifest proj with
  | Stats.Parsed m => if Stats.is_successful m then 1 else 0
  | _ => 0
  end.

Definition sum_files (projects : list Stats.project) : Z :=
  foldr (fun proj acc => (files proj + acc)%Z) 0%Z projects.

Definition sum_successes (projects : list Stats.project) : nat :=
  foldr (fun proj acc => successes proj + acc) 0 projects.

End Contribution.

(* ================================================================= *)
(** ** The phase stepper (renderer.js, 157-191) *)

Module PhaseStepper.

Definition PHASE_MAP : list (string * list string) :=
  [ ("briefing",  ["INTERPRETING"; "BRIEFING"; "AUTONOMOUS"]);
    ("architect", ["ARCHITECT"; "BLUEPRINT"; "PLANNING"]);
    ("engineer",  ["ENGINEER"; "CODING"; "IMPLEMENTING"; "WRITING"]);
    ("reviewer",  ["REVIEWER"; "DIAGNOSTICS"; "WISDOM"; "QUALITY"; "AUDIT"]);
    ("complete",  ["COMPLETE"; "SUCCESS"; "FINISHED"]) ].

Definition steps : list string :=
  ["briefing"; "architect"; "engineer"; "reviewer"; "complete"].

(** The class a step element ends up with. *)
Inductive mark := Plain | Completed | Active.

(** [steps.indexOf(key)], counting from [from]. *)
Fixpoint indexOf (key : string) (l : list string) (from : Z) : Z :=
  match l with
  | [] => (-1)%Z
  | k :: rest => if String.eqb k key then from else indexOf key rest (from + 1)%Z
  end.

(** [updatePhaseStepper], for a page that has the five step
    elements: the marks of the steps, in order. *)
Definition updatePhaseStepper (phaseKey : string) : list mark :=
  let currentIndex := indexOf phaseKey steps 0 in
  imap (fun index _ =>
          if (Z.of_nat index <? currentIndex)%Z then Completed
          else if (Z.of_nat index =? currentIndex)%Z then Active
          else Plain) steps.

(** The phase the first loop of [classifyLine] stops at. *)
Definition phase_of_line (text : string) : option string :=
  let upper := JS.toUpperCase text in
  option_map fst
    (List.find (fun entry => existsb (fun kw => JS.includes kw upper) (snd entry))
               PHASE_MAP).

(** The marks once [classifyLine] has seen a line. *)
Definition after_line (text : string) (marks : list mark) : list mark :=
  match phase_of_line text with
  | Some phaseKey => updatePhaseStepper phaseKey
  | None => marks
  end.

End PhaseStepper.

(* ================================================================= *)
(** * Properties *)

(** ** Worked examples *)

Example rate_demo : Stats.success_rate 1 3 = "33%" /\ Stats.success_rate 1 8 = "13%"
  /\ Stats.success_rate 0 0 = "0%" /\ Stats.success_rate 29 200 = "14%"
  /\ Num.toFixed2 (Num.binary64 (5 # 4)) = "1.25"
  /\ Num.toFixed2 (Num.binary64 (-(1 # 1000))) = "-0.00"
  /\ Num.toFixed2 (Num.binary64 (1005 # 1000)) = "1.00"
  /\ Num.toFixed2 (Num.add (Num.binary64 (1 # 10)) (Num.binary64 (2 # 10))) = "0.30".
Proof. vm_compute. repeat split; reflexivity. Qed.

(** The nearest binary64 value: one tenth, a tie between two
    subnormal values, the first integer that is not a number, and the
    overflow threshold. *)
Example binary64_demo :
  let value x :=
    match Num.binary64 x with Num.Finite q => Some (Qred q) | _ => None end in
  value (1 # 10)%Q = Some (3602879701896397 # 36028797018963968)%Q
  /\ value (3 # 2 ^ 1075)%Q = Some (1 # 2 ^ 1073)%Q
  /\ value (inject_Z (2 ^ 53 + 1)) = Some (inject_Z (2 ^ 53))
  /\ value (inject_Z (- (2 ^ 1024 - 2 ^ 970 - 1)))
     = Some (inject_Z (- (2 ^ 1024 - 2 ^ 971)))
  /\ Num.binary64 (inject_Z (2 ^ 1024 - 2 ^ 970)) = Num.PosInfinity.
Proof. vm_compute. repeat split; reflexivity. Qed.

Example sorted_demo :
  let h : gmap nat (list ProductTable.product) :=
    {[ 0 := [ [("name", ProductTable.VStr "pear")];
              [("name", ProductTable.VStr "Apple")] ] ]} in
  let '(r, h') := ProductTable.sorted (fun _ => None) h (ProductTable.ArrayRef 0) "name" "asc" in
  h' !! r = Some [ [("name", ProductTable.VStr "Apple")]; [("name", ProductTable.VStr "pear")] ]
  /\ h' !! 0 = h !! 0.
Proof. vm_compute. split; reflexivity. Qed.

Example classify_demo :
  Renderer.tag (Renderer.classifyLine "[Error] [engineer] oops") = "ENGINEER".
Proof. reflexivity. Qed.

Example world_demo :
  Launcher.deliver Launcher.initial Launcher.StartBuild
  = Some {| Launcher.main := {| Launcher.pythonProcess := Some 0; Launcher.spawned := 1 |};
            Launcher.running := [0]; Launcher.killed := []; Launcher.outbox := [] |}.
Proof. reflexivity. Qed.

Example split_demo :
  JS.split "010"%char ("a=1" +:+ String "010"%char (String "010"%char " b "))
  = ["a=1"; ""; " b "].
Proof. reflexivity. Qed.

Example parse_demo : Dotenv.parse_line " FOO = bar baz " = Some ("FOO", "bar baz").
Proof. reflexivity. Qed.

(** ** Strings *)

Lemma split_cons sep s : exists seg segs, JS.split sep s = seg :: segs.
Proof.
  destruct s as [|c r]; simpl; [eauto|].
  destruct (Ascii.eqb c sep); [eauto|].
  destruct (JS.split sep r); eauto.
Qed.

Lemma join_split sep s : JS.join sep (JS.split sep s) = s.
Proof.
  induction s as [|c r IH]; simpl; [reflexivity|].
  destruct (split_cons sep r) as (seg & segs & E).
  destruct (Ascii.eqb_spec c sep) as [->|Hne].
  - rewrite E.
    change (JS.join sep ("" :: seg :: segs))
      with ("" +:+ String sep (JS.join sep (seg :: segs))).
    now rewrite <- E, IH.
  - rewrite E in *. destruct segs as [|seg' segs].
    + simpl in *. now rewrite IH.
    + change (String c (JS.join sep (seg :: seg' :: segs)) = String c r).
      now rewrite IH.
Qed.

Lemma trimEnd_head c r :
  JS.is_white c = false -> JS.truthy (JS.trimEnd (String c r)) = true.
Proof.
  intros Hc. simpl. destruct (JS.trimEnd r); [now rewrite Hc|reflexivity].
Qed.

Lemma trim_truthy s : JS.truthy (JS.trim s) = negb (JS.all_white s).
Proof.
  unfold JS.trim. induction s as [|c r IH]; [reflexivity|].
  cbn [JS.trimStart JS.all_white].
  destruct (JS.is_white c) eqn:Hc; [exact IH|].
  now rewrite trimEnd_head.
Qed.

(** ** The launcher *)

Section LauncherFacts.
Import Launcher.

Lemma fold_perform_replies {A} (f : A -> reply) (l : list A) (w : world) :
  fold_left perform (map (fun x => Reply (f x)) l) w
  = {| main := main w; running := running w; killed := killed w;
       outbox := outbox w ++ map f l |}.
Proof.
  revert w. induction l as [|x l IH]; intros w; simpl.
  - rewrite app_nil_r. now destruct w.
  - rewrite IH. simpl. now rewrite <- app_assoc.
Qed.

Lemma coherent_initial : coherent initial.
Proof.
  unfold coherent; simpl; split_and!; intros c H;
    [inversion H | inversion H | discriminate].
Qed.

Ltac coherent_case :=
  unfold coherent, live; simpl; split_and!; intros; set_unfold; naive_solver lia.

Lemma coherent_deliver w ev w' :
  coherent w -> deliver w ev = Some w' -> coherent w'.
Proof.
  destruct w as [[h n] run kil out]. intros (Hrun & Hkil & Hh) Hstep.
  unfold live in *. simpl in *.
  destruct ev as [| | |c data|c data|c msg|c exit]; simpl in Hstep;
    try (destruct (is_running _ c) eqn:Hc; [|discriminate]);
    injection Hstep as <-.
  - destruct h; coherent_case.
  - destruct h; coherent_case.
  - destruct h; coherent_case.
  - unfold run_handler, on_stdout. cbn [main].
    rewrite fold_perform_replies. coherent_case.
  - unfold run_handler, on_stderr. cbn [main].
    rewrite fold_perform_replies. coherent_case.
  - coherent_case.
  - destruct exit as [[| |]|]; unfold coherent, live; cbn -[filter];
      split_and!; intros;
      repeat match goal with
             | H : _ ∈ filter _ _ |- _ => apply list_elem_of_filter in H
             end;
      set_unfold; naive_solver lia.
Qed.

Lemma reachable_coherent w : reachable w -> coherent w.
Proof.
  induction 1 as [|w ev w' _ IH Hstep];
    [apply coherent_initial | exact (coherent_deliver _ _ _ IH Hstep)].
Qed.

Lemma deliver_all_reachable evs w w' :
  reachable w -> deliver_all evs w = Some w' -> reachable w'.
Proof.
  revert w. induction evs as [|ev evs IH]; simpl; intros w Hw Hrun.
  - now injection Hrun as <-.
  - destruct (deliver w ev) as [w1|] eqn:Hstep; [|discriminate].
    eapply IH; [|exact Hrun]. eapply reachable_deliver; eauto.
Qed.

Lemma chunk_lines_blank data :
  chunk_lines data
  = filter (fun l => JS.all_white l = false) (JS.split "010"%char data).
Proof.
  unfold chunk_lines. apply list_filter_iff. intros l.
  rewrite trim_truthy. now destruct (JS.all_white l).
Qed.

(** C2: whatever the exit code, the [close] listener sends one
    [build-complete] message, successful exactly for code 0; it is
    never flagged as aborted, so the renderer shows COMPLETE for 0 and
    FAILED otherwise; the listener spawns nothing and drops the
    handle. *)
Theorem close_reports_exit_code
    (exit : option Z) (st : main_state) (v : Renderer.build_view) :
  exists r,
    build_completes (on_close exit st).2 = [r]
    /\ success r = bool_decide (exit = Some 0%Z)
    /\ aborted r = false
    /\ Renderer.statusText (Renderer.on_build_complete r v)
       = (if bool_decide (exit = Some 0%Z) then "COMPLETE" else "FAILED")
    /\ spawns (on_close exit st).2 = []
    /\ pythonProcess ((on_close exit st).1.2) = None.
Proof.
  destruct exit as [[| |]|]; eexists; repeat split; reflexivity.
Qed.



(** The handle does not count the children alive: the [close] event
    of a child killed by a restart clears the handle of its
    successor, which then runs on unattended. *)
Example stale_close_clears_new_handle :
  exists w,
    deliver_all [StartBuild; StartBuild; Close 0 None] initial = Some w
    /\ pythonProcess (main w) = None
    /\ live w 1.
Proof.
  eexists. split; [reflexivity|]. split; [reflexivity|].
  unfold live; simpl. set_solver.
Qed.

(** The guard of [cancel-build] reads the handle. *)
Lemma cancel_build_without_handle (w : world) :
  pythonProcess (main w) = None ->
  (cancel_build (main w)).2 = [] /\ run_handler cancel_build w = w.
Proof.
  destruct w as [[h n] run kil out]; simpl. intros ->. split; reflexivity.
Qed.

(** C8, as stated, fails: after a build is cancelled and the next one
    started, the [close] event of the first child clears the handle
    of the second, which runs on; [cancel-build] then kills nothing
    and sends nothing. *)
Lemma cancel_build_misses_running_child :
  exists w,
    deliver_all [StartBuild; CancelBuild; StartBuild; Close 0 None] initial
    = Some w
    /\ live w 1
    /\ kills (cancel_build (main w)).2 = []
    /\ build_completes (cancel_build (main w)).2 = []
    /\ run_handler cancel_build w = w.
Proof.
  eexists. split; [reflexivity|]. split; [|repeat split; reflexivity].
  unfold live; simpl. set_solver.
Qed.

(** C8 (amended): in every reachable state, when no child is running
    the [cancel-build] handler sends nothing and changes nothing; when
    the handle designates a child, that child is running and was not
    killed, and the handler kills it, clears the handle and sends one
    log line and exactly one [build-complete] message, flagged as
    aborted. *)
Theorem cancel_build_spec (w : world) :
  reachable w ->
  ((forall c, ~ live w c) ->
   (cancel_build (main w)).2 = [] /\ run_handler cancel_build w = w)
  /\ (forall child, pythonProcess (main w) = Some child ->
      live w child
      /\ kills (cancel_build (main w)).2 = [child]
      /\ spawns (cancel_build (main w)).2 = []
      /\ log_updates (cancel_build (main w)).2
         = ["[ERROR] Build aborted by operator."]
      /\ build_completes (cancel_build (main w)).2
         = [{| success := false; code := None; aborted := true |}]
      /\ pythonProcess ((cancel_build (main w)).1.2) = None
      /\ pythonProcess (main (run_handler cancel_build w)) = None
      /\ ~ live (run_handler cancel_build w) child).
Proof.
  intros Hr. apply reachable_coherent in Hr as (_ & _ & Hh). split.
  - intros Hnone. apply cancel_build_without_handle.
    destruct (pythonProcess (main w)) as [c|] eqn:Hc; [|reflexivity].
    destruct (Hh c eq_refl) as [Hlive _]. now destruct (Hnone c).
  - intros child Hc. destruct (Hh child Hc) as [Hlive _].
    split; [exact Hlive|].
    destruct w as [[h n] run kil out]; simpl in Hc; subst h.
    split_and!; try reflexivity.
    unfold live; simpl. set_solver.
Qed.

Lemma cancel_build_spec_witness :
  exists w,
    deliver_all [StartBuild; StdoutData 0 "Planning"] initial = Some w
    /\ pythonProcess (main w) = Some 0
    /\ live w 0
    /\ kills (cancel_build (main w)).2 = [0]
    /\ build_completes (cancel_build (main w)).2
       = [{| success := false; code := None; aborted := true |}]
    /\ ~ live (run_handler cancel_build w) 0.
Proof.
  eexists. split; [reflexivity|]. split; [reflexivity|].
  match goal with |- live ?w _ /\ _ =>
    destruct (cancel_build_spec w) as [_ H]
  end.
  - eapply (deliver_all_reachable [StartBuild; StdoutData 0 "Planning"]);
      [apply reachable_initial|reflexivity].
  - destruct (H 0 eq_refl) as (H1 & H2 & _ & _ & H5 & _ & _ & H8).
    split_and!; assumption.
Defined.

End LauncherFacts.

(** ** Forwarding and classifying the child's output *)

Section OutputFacts.
Import Launcher Renderer.

Lemma find_first {A} (f : A -> bool) (pre : list A) (x : A) (post : list A) :
  (forall e, e ∈ pre -> f e = false) -> f x = true ->
  List.find f (pre ++ x :: post) = Some x.
Proof.
  intros Hpre Hx. induction pre as [|e pre IH]; simpl.
  - now rewrite Hx.
  - rewrite (Hpre e) by set_solver. apply IH. intros e' He'. apply Hpre. set_solver.
Qed.

Lemma find_absent {A} (f : A -> bool) (l : list A) :
  (forall e, e ∈ l -> f e = false) -> List.find f l = None.
Proof.
  intros Hl. induction l as [|e l IH]; simpl; [reflexivity|].
  rewrite (Hl e) by set_solver. apply IH. intros e' He'. apply Hl. set_solver.
Qed.

Lemma classifyLine_in_table text :
  (tag (classifyLine text), who (classifyLine text)) ∈ AGENT_PERSONAS.
Proof.
  unfold classifyLine.
  destruct (List.find _ AGENT_PERSONAS) as [[key p]|] eqn:Hfind.
  - apply find_some in Hfind as [Hin _]. now apply list_elem_of_In.
  - simpl. unfold AGENT_PERSONAS, SYSTEM. set_solver.
Qed.

(** C4, as stated, fails on a line with two tags: a stderr line that
    carries an engineer tag is forwarded behind the error prefix and
    classified as the engineer's. *)
Lemma later_tag_is_ignored :
  ~ (forall text key p,
        (key, p) ∈ AGENT_PERSONAS ->
        JS.includes (bracketed key) (JS.toUpperCase text) = true ->
        class (who (classifyLine text)) = class p).
Proof.
  intros H.
  specialize (H "[ERROR] [ENGINEER] build failed" "ERROR"
                {| class := "persona-error"; icon := "🚨" |}).
  discriminate H; [unfold AGENT_PERSONAS; set_solver | reflexivity].
Qed.

(** C4, amended: a chunk is cut at line feeds (joining the pieces
    gives the chunk back), the blank pieces are dropped, and each
    other piece is forwarded, in order, as one [log-update] message,
    behind "[ERROR] " when it comes from stderr; nothing else is sent
    and no variable changes.  The classifier always answers with an
    entry of the table: the first entry, in declaration order, whose
    bracketed tag occurs in the upper-cased line, and the SYSTEM
    entry when no tag occurs. *)
Theorem forwarding_and_classification :
  (forall data, JS.join "010"%char (JS.split "010"%char data) = data)
  /\ (forall data st,
        on_stdout data st
        = (tt, st,
           map (fun l => Reply (LogUpdate l))
               (filter (fun l => JS.all_white l = false)
                       (JS.split "010"%char data))))
  /\ (forall data st,
        on_stderr data st
        = (tt, st,
           map (fun l => Reply (LogUpdate ("[ERROR] " +:+ l)))
               (filter (fun l => JS.all_white l = false)
                       (JS.split "010"%char data))))
  /\ (forall text, (tag (classifyLine text), who (classifyLine text)) ∈ AGENT_PERSONAS)
  /\ (forall text pre key p post,
        AGENT_PERSONAS = pre ++ (key, p) :: post ->
        (forall e, e ∈ pre -> mentions (JS.toUpperCase text) e = false) ->
        JS.includes (bracketed key) (JS.toUpperCase text) = true ->
        classifyLine text = {| who := p; tag := key |})
  /\ (forall text,
        (forall e, e ∈ AGENT_PERSONAS -> mentions (JS.toUpperCase text) e = false) ->
        classifyLine text = {| who := SYSTEM; tag := "SYSTEM" |}).
Proof.
  split_and!.
  - intros data. apply join_split.
  - intros data st. unfold on_stdout. now rewrite chunk_lines_blank.
  - intros data st. unfold on_stderr. now rewrite chunk_lines_blank.
  - apply classifyLine_in_table.
  - intros text pre key p post Htable Hpre Hkey. unfold classifyLine.
    rewrite Htable, (find_first _ pre (key, p) post); auto.
  - intros text Hnone. unfold classifyLine. now rewrite find_absent.
Qed.

Lemma forwarding_and_classification_witness :
  on_stderr ("[engineer] wrote app.py" +:+ String "010"%char "   ")
            {| pythonProcess := Some 0; spawned := 1 |}
  = (tt, {| pythonProcess := Some 0; spawned := 1 |},
     [Reply (LogUpdate "[ERROR] [engineer] wrote app.py")])
  /\ classifyLine "[ERROR] [engineer] wrote app.py"
     = {| who := {| class := "persona-engineer"; icon := "🔧" |}; tag := "ENGINEER" |}
  /\ classifyLine "plain text" = {| who := SYSTEM; tag := "SYSTEM" |}.
Proof.
  destruct forwarding_and_classification as (_ & _ & Herr & _ & Hfirst & Hnone).
  split_and!.
  - rewrite Herr. reflexivity.
  - apply (Hfirst _ [("ARCHITECT", {| class := "persona-architect"; icon := "📐" |})]
                  _ _ _ eq_refl); [|reflexivity].
    intros e He. apply list_elem_of_singleton in He. now subst.
  - apply Hnone. intros e He. unfold AGENT_PERSONAS in He.
    repeat (apply elem_of_cons in He as [->|He]; [reflexivity|]).
    inversion He.
Defined.

End OutputFacts.

(** ** The [.env] loader *)

Section DotenvFacts.
Import Dotenv.

Lemma load_line_keeps (env : gmap string string) line k v :
  env !! k = Some v -> JS.truthy v = true -> load_line env line !! k = Some v.
Proof.
  intros Hk Hv. unfold load_line.
  destruct (parse_line line) as [[key val]|]; [|exact Hk].
  destruct (decide (key = k)) as [->|Hne].
  - unfold env_truthy. now rewrite Hk, Hv.
  - destruct (negb _); [|exact Hk]. now rewrite lookup_insert_ne.
Qed.

(** A variable that holds a non-empty string survives the loading. *)
Lemma load_dotenv_keeps (env : gmap string string) f k v :
  env !! k = Some v -> JS.truthy v = true -> load_dotenv env f !! k = Some v.
Proof.
  destruct f as [| |content]; simpl; auto.
  generalize (JS.split "010"%char content) as lines.
  intros lines. revert env. induction lines as [|line lines IH]; simpl; auto.
  intros env Hk Hv. apply IH; auto using load_line_keeps.
Qed.

(** A file that is missing or cannot be read leaves the environment
    as it was. *)
Lemma load_dotenv_failure (env : gmap string string) :
  load_dotenv env Missing = env /\ load_dotenv env Unreadable = env.
Proof. split; reflexivity. Qed.

(** A line defines a variable only when, once trimmed, it is not
    empty, is not a comment and has its first [=] past position 0. *)
Lemma parse_line_defines line key val :
  parse_line line = Some (key, val) ->
  JS.trim line <> ""
  /\ JS.startsWith "#" (JS.trim line) = false
  /\ (0 < JS.indexOf "="%char (JS.trim line))%Z.
Proof.
  unfold parse_line. cbv zeta.
  destruct (JS.trim line) as [|c r] eqn:Ht; [discriminate|].
  destruct (JS.startsWith "#" (String c r)) eqn:Hs; [discriminate|].
  cbn [JS.truthy negb andb].
  destruct (0 <? JS.indexOf "="%char (String c r))%Z eqn:Hi; [|discriminate].
  intros _. split_and!; [discriminate|reflexivity|lia].
Qed.

(** Whatever changes in the environment comes from such a line. *)
Lemma load_dotenv_changes (env : gmap string string) content k :
  load_dotenv env (Content content) !! k <> env !! k ->
  exists line val,
    line ∈ JS.split "010"%char content /\ parse_line line = Some (k, val).
Proof.
  simpl. generalize (JS.split "010"%char content) as lines.
  intros lines. revert env. induction lines as [|line lines IH]; simpl; intros env Hk.
  - congruence.
  - destruct (decide (load_line env line !! k = env !! k)) as [Heq|Hne].
    + rewrite <- Heq in Hk. destruct (IH _ Hk) as (l & v & Hin & Hp).
      exists l, v. split; [set_solver|exact Hp].
    + unfold load_line in Hne.
      destruct (parse_line line) as [[key val]|] eqn:Hp; [|congruence].
      destruct (negb _); [|congruence].
      destruct (decide (key = k)) as [->|Hkey].
      * exists line, val. split; [set_solver|exact Hp].
      * now rewrite lookup_insert_ne in Hne.
Qed.

(** C9: the loader tests the old value for truthiness, so a
    variable that is set to the empty string is overwritten. *)
Theorem dotenv_overwrites_empty_variable :
  let env : gmap string string := {[ "API_KEY" := "" ]} in
  env !! "API_KEY" = Some ""
  /\ load_dotenv env (Content "API_KEY=secret") !! "API_KEY" = Some "secret".
Proof. split; vm_compute; reflexivity. Qed.

End DotenvFacts.

(** ** Rounding to binary64 *)

Section NumFacts.
Import Num.
Local Open Scope Z_scope.

Lemma round_half_even_near (a b : Z) :
  0 < b -> Z.abs (2 * (round_half_even a b * b - a)) <= b.
Proof.
  intros Hb. unfold round_half_even.
  pose proof (Z.div_mod a b ltac:(lia)) as Hd.
  pose proof (Z.mod_pos_bound a b Hb) as Hr.
  destruct (Z.compare_spec (2 * (a mod b)) b) as [H|H|H];
    [destruct (Z.even (a / b))| |]; nia.
Qed.

(** Between [2^-1022] and [2^1023] the significand has its 53 bits. *)
Lemma ulp_exponent_normal (a b : Z) :
  0 < b -> b <= a * 2 ^ 1022 -> a < b * 2 ^ 1023 ->
  0 <= ulp_exponent a b
  /\ 2 ^ 52 * (b * 2 ^ ulp_exponent a b) <= a * 2 ^ 1074
     < 2 ^ 53 * (b * 2 ^ ulp_exponent a b)
  /\ 2 ^ 53 * 2 ^ ulp_exponent a b < 2 ^ 2098.
Proof.
  intros Hb Hlow Hhigh. unfold ulp_exponent.
  set (X := a * 2 ^ 1075 / b).
  assert (HK : 2 ^ 1075 = 2 * 2 ^ 1074)
    by (change 1075 with (Z.succ 1074); apply Z.pow_succ_r; lia).
  assert (HK0 : 0 < 2 ^ 1074) by (apply Z.pow_pos_nonneg; lia).
  assert (HX : b * X <= a * 2 ^ 1075 < b * (X + 1)).
  { subst X. pose proof (Z.div_mod (a * 2 ^ 1075) b ltac:(lia)).
    pose proof (Z.mod_pos_bound (a * 2 ^ 1075) b Hb). nia. }
  assert (H53 : 2 ^ 53 <= X).
  { subst X. apply Z.div_le_lower_bound; [lia|].
    replace (2 ^ 1075) with (2 ^ 1022 * 2 ^ 53)
      by (rewrite <- Z.pow_add_r by lia; reflexivity).
    assert (0 < 2 ^ 53) by (apply Z.pow_pos_nonneg; lia). nia. }
  assert (HXpos : 0 < X)
    by (assert (0 < 2 ^ 53) by (apply Z.pow_pos_nonneg; lia); lia).
  pose proof (Z.log2_spec X HXpos) as [Hl1 Hl2].
  assert (HL : 53 <= Z.log2 X) by (apply Z.log2_le_pow2; [lia|exact H53]).
  rewrite Z.max_l by lia.
  set (L := Z.log2 X) in *.
  assert (HpL : 2 ^ L = 2 ^ 53 * 2 ^ (L - 53))
    by (rewrite <- Z.pow_add_r by lia; f_equal; lia).
  assert (HpL1 : 2 ^ Z.succ L = 2 * 2 ^ L) by (apply Z.pow_succ_r; lia).
  assert (H5 : 2 ^ 53 = 2 * 2 ^ 52)
    by (change 53 with (Z.succ 52); apply Z.pow_succ_r; lia).
  assert (Hc : 0 < 2 ^ (L - 53)) by (apply Z.pow_pos_nonneg; lia).
  assert (H52 : 0 < 2 ^ 52) by (apply Z.pow_pos_nonneg; lia).
  split; [lia|]. split; [split; nia|].
  rewrite <- HpL.
  assert (X < 2 ^ 2098).
  { subst X. apply Z.div_lt_upper_bound; [lia|].
    replace (2 ^ 2098) with (2 ^ 1023 * 2 ^ 1075)
      by (rewrite <- Z.pow_add_r by lia; reflexivity).
    assert (0 < 2 ^ 1075) by lia. nia. }
  apply Z.pow_lt_mono_r; [lia|lia|].
  apply Z.log2_lt_pow2; [lia|assumption].
Qed.

Lemma binary64_zero (x : Q) :
  Qnum x = 0 -> exists Y, binary64 x = Finite (Y # 2 ^ 1074) /\ Y = 0.
Proof.
  intros H0. unfold binary64, ulp_exponent. cbv zeta. rewrite H0.
  change (Z.abs 0) with 0. rewrite !Z.mul_0_l.
  destruct (Z.leb_spec (2 ^ 2098) 0) as [H|_].
  - assert (0 < 2 ^ 2098) by (apply Z.pow_pos_nonneg; lia). lia.
  - eexists. split; reflexivity.
Qed.

(** The relative error of a rounding in that range is at most
    [2^-53]. *)
Lemma binary64_normal (x : Q) :
  0 < Qnum x ->
  Z.pos (Qden x) <= Qnum x * 2 ^ 1022 ->
  Qnum x < Z.pos (Qden x) * 2 ^ 1023 ->
  exists Y,
    binary64 x = Finite (Y # 2 ^ 1074)
    /\ 2 ^ 53 * Z.abs (Y * Z.pos (Qden x) - Qnum x * 2 ^ 1074)
       <= Qnum x * 2 ^ 1074.
Proof.
  intros Ha Hlow Hhigh. unfold binary64. cbv zeta.
  rewrite (Z.abs_eq (Qnum x)) by lia. rewrite Z.sgn_pos by exact Ha.
  pose proof (ulp_exponent_normal (Qnum x) (Z.pos (Qden x)) ltac:(lia) Hlow Hhigh)
    as (Hc & [Hn1 Hn2] & Hov).
  set (c := ulp_exponent (Qnum x) (Z.pos (Qden x))) in *.
  assert (Hpc : 0 < 2 ^ c) by (apply Z.pow_pos_nonneg; lia).
  pose proof (round_half_even_near (Qnum x * 2 ^ 1074) (Z.pos (Qden x) * 2 ^ c)
                ltac:(nia)) as Hm.
  set (m := round_half_even (Qnum x * 2 ^ 1074) (Z.pos (Qden x) * 2 ^ c)) in *.
  set (K := 2 ^ 1074) in *.
  set (B := Z.pos (Qden x) * 2 ^ c) in *.
  assert (HB : 0 < B) by (subst B; nia).
  assert (H5 : 2 ^ 53 = 2 * 2 ^ 52)
    by (change 53 with (Z.succ 52); apply Z.pow_succ_r; lia).
  assert (H52 : 0 < 2 ^ 52) by (apply Z.pow_pos_nonneg; lia).
  set (T := 2 ^ 52) in *.
  assert (Hm53 : m <= 2 * T).
  { rewrite H5 in Hn2. apply Z.lt_succ_r.
    apply (Z.mul_lt_mono_pos_r (2 * B)); [lia|]. nia. }
  destruct (Z.leb_spec (2 ^ 2098) (m * 2 ^ c)) as [H|_].
  - exfalso. rewrite H5 in Hov. nia.
  - exists (m * 2 ^ c). split.
    + rewrite Z.mul_1_l. reflexivity.
    + rewrite H5.
      replace (m * 2 ^ c * Z.pos (Qden x)) with (m * B) by (subst B; ring).
      nia.
Qed.

Lemma Math_round_grid (Y : Z) :
  Math_round (Finite (Y # 2 ^ 1074))
  = Int ((2 * Y + 2 ^ 1074) / (2 * 2 ^ 1074)).
Proof.
  unfold Math_round, Qfloor, Qplus. cbn [Qnum Qden]. f_equal.
  rewrite Pos2Z.inj_mul, Pos2Z.inj_pow. f_equal; ring.
Qed.

(** Two roundings move [100 * s / n] by less than [1 / (2 * n)]. *)
Lemma two_roundings (s n K Y1 Y2 : Z) :
  0 < K -> 0 < s <= n -> n < 2 ^ 32 ->
  2 ^ 53 * Z.abs (Y1 * n - s * K) <= s * K ->
  2 ^ 53 * Z.abs (Y2 * K - Y1 * 100 * K) <= Y1 * 100 * K ->
  2 * Z.abs (Y2 * n - 100 * s * K) < K.
Proof.
  intros HK Hs Hn H1 H2.
  change (2 ^ 53) with 9007199254740992 in *.
  change (2 ^ 32) with 4294967296 in *.
  assert (H2' : 9007199254740992 * Z.abs (Y2 - Y1 * 100) <= Y1 * 100).
  { apply (Z.mul_le_mono_pos_r _ _ K); [exact HK|].
    replace (9007199254740992 * Z.abs (Y2 - Y1 * 100) * K)
      with (9007199254740992 * Z.abs (Y2 * K - Y1 * 100 * K)); [lia|].
    replace (Y2 * K - Y1 * 100 * K) with ((Y2 - Y1 * 100) * K) by ring.
    rewrite Z.abs_mul, (Z.abs_eq K) by lia. ring. }
  assert (HY1 : Y1 * n <= 2 * (s * K)) by nia.
  assert (HsK : s * K <= n * K) by nia.
  assert (Hsum : 9007199254740992 * Z.abs (Y2 * n - 100 * s * K) <= 300 * (s * K)).
  { replace (Y2 * n - 100 * s * K)
      with (n * (Y2 - Y1 * 100) + 100 * (Y1 * n - s * K)) by ring.
    assert (Z.abs (n * (Y2 - Y1 * 100) + 100 * (Y1 * n - s * K))
            <= n * Z.abs (Y2 - Y1 * 100) + 100 * Z.abs (Y1 * n - s * K)).
    { etransitivity; [apply Z.abs_triangle|].
      rewrite !Z.abs_mul, (Z.abs_eq n), (Z.abs_eq 100) by lia. reflexivity. }
    assert (9007199254740992 * (n * Z.abs (Y2 - Y1 * 100)) <= 100 * (Y1 * n))
      by nia.
    lia. }
  assert (Hn' : 600 * (n * K) < 9007199254740992 * K) by nia.
  lia.
Qed.

(** A value that close to [100 * s / n] rounds as [100 * s / n]
    does, unless the latter lies half-way between two integers. *)
Lemma nearest_percent (s n K Y : Z) :
  0 < K -> 0 < n ->
  2 * Z.abs (Y * n - 100 * s * K) < K ->
  ((200 * s + n) mod (2 * n) <> 0 ->
   (2 * Y + K) / (2 * K) = (200 * s + n) / (2 * n))
  /\ ((200 * s + n) mod (2 * n) = 0 ->
      (2 * Y + K) / (2 * K) = (200 * s + n) / (2 * n)
      \/ (2 * Y + K) / (2 * K) = (200 * s + n) / (2 * n) - 1).
Proof.
  intros HK Hn HE.
  pose proof (Z.div_mod (200 * s + n) (2 * n) ltac:(lia)) as HJ.
  pose proof (Z.mod_pos_bound (200 * s + n) (2 * n) ltac:(lia)) as Hr.
  pose proof (Z.div_mod (2 * Y + K) (2 * K) ltac:(lia)) as Hk.
  pose proof (Z.mod_pos_bound (2 * Y + K) (2 * K) ltac:(lia)) as Hq.
  set (J := (200 * s + n) / (2 * n)) in *.
  set (r := (200 * s + n) mod (2 * n)) in *.
  set (k := (2 * Y + K) / (2 * K)) in *.
  set (q := (2 * Y + K) mod (2 * K)) in *.
  assert (Hmid : n * (2 * Y + K)
                 = 2 * (Y * n - 100 * s * K) + K * (2 * n * J + r)) by nia.
  assert (Hlo : K * (2 * n * J + r) - K < n * (2 * K * k + q)) by lia.
  assert (Hhi : n * (2 * K * k + q) < K * (2 * n * J + r) + K) by lia.
  split.
  - intros Hne. assert (1 <= r <= 2 * n - 1) by lia.
    assert (J < k + 1) by nia. assert (k < J + 1) by nia. lia.
  - intros H0. rewrite H0 in *.
    assert (J - 1 < k + 1) by nia. assert (k < J + 1) by nia. lia.
Qed.

Lemma divide_counts (s : Z) (p : positive) :
  divide (inject_Z s) (inject_Z (Z.pos p)) = binary64 (s # p).
Proof.
  unfold divide. change (Qeq_bool (inject_Z (Z.pos p)) 0) with false.
  unfold Qdiv, Qmult, Qinv, inject_Z. cbn [Qnum Qden].
  now rewrite Z.mul_1_r, Pos.mul_1_l.
Qed.

(** [(s / n) * 100] in binary64, for counts below [2^32]. *)
Lemma rate_rounding (s n : Z) :
  0 <= s <= n -> 0 < n < 2 ^ 32 ->
  exists Y,
    scale (divide (inject_Z s) (inject_Z n)) 100 = Finite (Y # 2 ^ 1074)
    /\ 2 * Z.abs (Y * n - 100 * s * 2 ^ 1074) < 2 ^ 1074.
Proof.
  intros Hs Hn. destruct n as [|p|p]; try lia. rewrite divide_counts.
  assert (HK : 0 < 2 ^ 1074) by (apply Z.pow_pos_nonneg; lia).
  destruct (Z.eq_dec s 0) as [->|Hs0].
  - destruct (binary64_zero (0 # p) eq_refl) as (Y1 & -> & ->).
    destruct (binary64_zero ((0 # 2 ^ 1074) * 100)%Q eq_refl) as (Y2 & H2 & ->).
    exists 0. split; [exact H2|]. simpl Z.abs. lia.
  - assert (H32 : 2 ^ 32 <= 2 ^ 1022) by (apply Z.pow_le_mono_r; lia).
    assert (H1023 : 2 ^ 1023 = 2 * 2 ^ 1022)
      by (change 1023 with (Z.succ 1022); apply Z.pow_succ_r; lia).
    destruct (binary64_normal (s # p)) as (Y1 & -> & H1); cbn [Qnum Qden];
      [lia|nia|nia|].
    cbn [Qnum Qden] in H1. cbn [scale].
    assert (HY1 : Z.pos p * 2 ^ 1074 <= 2 * (Y1 * Z.pos p * 2 ^ 32)
                  /\ Y1 <= 2 * 2 ^ 1074).
    { change (2 ^ 53) with 9007199254740992 in H1.
      change (2 ^ 32) with 4294967296 in *.
      set (K := 2 ^ 1074) in *. split; nia. }
    destruct (binary64_normal ((Y1 # 2 ^ 1074) * 100)%Q) as (Y2 & -> & H2);
      cbn [Qnum Qden Qmult]; rewrite ?Pos.mul_1_r, ?Pos2Z.inj_pow.
    + change (2 ^ 32) with 4294967296 in *. set (K := 2 ^ 1074) in *. nia.
    + change (Z.pos 2 ^ Z.pos 1074) with (2 ^ 1074).
      replace (2 ^ 1074) with (2 ^ 52 * 2 ^ 1022) at 1
        by (rewrite <- Z.pow_add_r by lia; reflexivity).
      assert (H85 : 2 ^ 85 <= 2 ^ 1074) by (apply Z.pow_le_mono_r; lia).
      change (2 ^ 32) with 4294967296 in *.
      change (2 ^ 52) with 4503599627370496.
      change (2 ^ 85) with 38685626227668133590597632 in H85.
      set (K := 2 ^ 1074) in *. set (M := 2 ^ 1022) in *.
      assert (0 < M) by lia.
      assert (K <= 8589934592 * Y1) by nia.
      assert (4503599627370496 <= Y1 * 100) by lia. nia.
    + change (Z.pos 2 ^ Z.pos 1074) with (2 ^ 1074).
      rewrite H1023. set (K := 2 ^ 1074) in *. set (M := 2 ^ 1022) in *. nia.
    + exists Y2. split; [reflexivity|].
      cbn [Qnum Qden Qmult] in H2. rewrite Pos.mul_1_r, Pos2Z.inj_pow in H2.
      change (Z.pos 2 ^ Z.pos 1074) with (2 ^ 1074) in H2.
      apply two_roundings with (Y1 := Y1); try assumption; lia.
Qed.

End NumFacts.

(** ** The dashboard statistics *)

Section StatsFacts.
Import Stats.

Lemma claimed_rate_floor (s n : Z) :
  (0 < n)%Z -> claimed_rate s n = ((200 * s + n) / (2 * n))%Z.
Proof.
  intros Hn. destruct n as [|p|p]; try lia.
  unfold claimed_rate, Qfloor, Qplus, Qdiv, Qmult, Qinv, inject_Z.
  cbn [Qnum Qden]. rewrite Pos.mul_1_l, Pos2Z.inj_mul. f_equal; lia.
Qed.

Lemma half_way_spec (s n : Z) :
  (0 < n)%Z -> half_way s n = true <-> ((200 * s + n) mod (2 * n) = 0)%Z.
Proof.
  intros Hn. unfold half_way. rewrite Z.eqb_eq.
  pose proof (Z.div_mod (200 * s) (2 * n) ltac:(lia)) as H1.
  pose proof (Z.mod_pos_bound (200 * s) (2 * n) ltac:(lia)) as H2.
  pose proof (Z.div_mod (200 * s + n) (2 * n) ltac:(lia)) as H3.
  pose proof (Z.mod_pos_bound (200 * s + n) (2 * n) ltac:(lia)) as H4.
  set (a := ((200 * s) / (2 * n))%Z) in *.
  set (r := ((200 * s) mod (2 * n))%Z) in *.
  set (b := ((200 * s + n) / (2 * n))%Z) in *.
  set (t := ((200 * s + n) mod (2 * n))%Z) in *.
  assert (Hab : (2 * n * (b - a) = r + n - t)%Z) by lia.
  assert (Hba : (b = a \/ b = a + 1)%Z) by nia.
  split; intros H; destruct Hba as [-> | ->]; nia.
Qed.

Lemma is_successful_spec (m : manifest) :
  is_successful m = bool_decide (status m = Some "COMPLETE") || success m.
Proof.
  unfold is_successful. destruct (status m) as [st|].
  - destruct (String.eqb_spec st "COMPLETE") as [->|Hne].
    + now rewrite bool_decide_eq_true_2.
    + now rewrite bool_decide_eq_false_2 by congruence.
  - now rewrite bool_decide_eq_false_2 by congruence.
Qed.

(** The counter is the number of projects whose manifest parses and
    says so. *)
Lemma fold_visit_successful projects t :
  successfulBuilds (fold_left visit projects t)
  = successfulBuilds t
    + length (List.filter
                (fun proj =>
                   match project_manifest proj with
                   | Parsed m =>
                       bool_decide (status m = Some "COMPLETE") || success m
                   | _ => false
                   end) projects).
Proof.
  revert t. induction projects as [|proj projects IH]; intros t;
    cbn [fold_left List.filter]; [simpl; lia|].
  rewrite IH. unfold visit.
  destruct (project_manifest proj) as [| |m]; cbn [successfulBuilds];
    [reflexivity..|].
  rewrite <- is_successful_spec.
  destruct (is_successful m); cbn [length]; lia.
Qed.




End StatsFacts.

(** ** The [/low-stock] endpoint *)

Section LowStockFacts.
Import Backend Json.

Lemma is_low_stock_integers p :
  is_low_stock p = (10 * current_stock p <? initial_capacity p)%Z.
Proof.
  unfold is_low_stock.
  destruct (Qcompare_spec (inject_Z (current_stock p))
                          ((1 # 10) * inject_Z (initial_capacity p))) as [H|H|H];
    unfold Qeq, Qlt in H; simpl in H;
    destruct (Z.ltb_spec (10 * current_stock p) (initial_capacity p));
    try reflexivity; lia.
Qed.

(** C1: a product is low on stock exactly when its current stock is
    below a tenth of its initial capacity; the endpoint answers with
    exactly the products of the database that are low on stock, in
    their order and without repetition of rows, and with the empty
    list when there is none; the client hands a successful answer to
    its caller as it is. *)
Theorem low_stock_exact :
  (forall p,
      is_low_stock p = true
      <-> (inject_Z (current_stock p) < (1 # 10) * inject_Z (initial_capacity p))%Q)
  /\ (forall db p, p ∈ low_stock db <-> p ∈ db /\ is_low_stock p = true)
  /\ (forall db, sublist (low_stock db) db)
  /\ (forall db, low_stock db = [] <-> forall p, p ∈ db -> is_low_stock p = false)
  /\ (forall status statusText body,
        Api.getLowStock (Response true status statusText (Return body)) = Return body).
Proof.
  split_and!.
  - intros p. unfold is_low_stock. rewrite Qlt_alt.
    destruct (_ ?= _)%Q; split; congruence.
  - intros db p. unfold low_stock. rewrite !list_elem_of_In, filter_In. tauto.
  - intros db. unfold low_stock. induction db as [|p db IH]; simpl.
    + constructor.
    + destruct (is_low_stock p); now constructor.
  - intros db. unfold low_stock. induction db as [|p db IH]; simpl.
    + split; [intros _ p Hp; inversion Hp|reflexivity].
    + destruct (is_low_stock p) eqn:Hp; split.
      * discriminate.
      * intros H. specialize (H p ltac:(set_solver)). congruence.
      * intros H q Hq. apply elem_of_cons in Hq as [->|Hq]; [exact Hp|].
        now apply IH.
      * intros H. apply IH. intros q Hq. apply H. set_solver.
  - reflexivity.
Qed.

End LowStockFacts.

(** ** Errors in the dashboard *)

Section ErrorFacts.
Import Json StockAlert ProductTable.

(** C5, as stated, fails on the API client: [fetchAPI] throws the
    error it caught again, so a failed request reaches the caller. *)
Lemma fetchAPI_propagates :
  ~ (forall r, exists v, Api.fetchAPI r = Return v).
Proof.
  intros H. destruct (H (Rejected "Failed to fetch")) as [v Hv]. discriminate Hv.
Qed.

(** C5, amended: the StockAlert panel never lets an error out: its
    fetch always completes with the loading flag down, with the
    items of a successful array answer, and with the empty list of
    alerts after a rejected request, a bad status, an unreadable
    body or a body that is not an array; a product whose unit price
    is missing or null is rendered as "$0.00".  The API client of
    [lib/api.js], in contrast, logs a failure and throws it again,
    and returns the parsed body of a successful answer. *)
Theorem dashboard_error_defaults :
  (forall r st, exists st',
      fetchLowStock r st = Return st'
      /\ loading st' = false
      /\ match r with
         | Response true _ _ (Return (JArr items)) =>
             alerts st' = items /\ error st' = None
         | Response true _ _ (Return _) =>
             alerts st' = [] /\ error st' = None
         | _ => alerts st' = [] /\ exists message, error st' = Some message
         end)
  /\ (forall p,
        get p "unit_price" = None \/ get p "unit_price" = Some VNull ->
        price_cell p = Return "$0.00")
  /\ (forall r,
        Api.fetchAPI r
        = match r with
          | Rejected message => Throw message
          | Response false status statusText _ =>
              Throw ("API error: " +:+ JS.show_Z status +:+ " " +:+ statusText)
          | Response true _ _ body => body
          end).
Proof.
  split_and!.
  - intros r st. unfold fetchLowStock. eexists. split; [reflexivity|].
    split; [reflexivity|].
    destruct r as [message|[|] status statusText [[| | | |items|]|message]];
      simpl; eauto.
  - intros p [H|H]; unfold price_cell; now rewrite H.
  - intros [message|[|] status statusText [body|message]]; reflexivity.
Qed.

Lemma dashboard_error_defaults_witness :
  price_cell [("name", VStr "Bolt"); ("unit_price", VNull)] = Return "$0.00"
  /\ price_cell [("name", VStr "Nut")] = Return "$0.00"
  /\ Api.fetchAPI (Response false 500 "Internal Server Error" (Return JNull))
     = Throw "API error: 500 Internal Server Error".
Proof.
  destruct dashboard_error_defaults as (_ & Hprice & Hapi).
  split_and!.
  - apply Hprice. right. reflexivity.
  - apply Hprice. left. reflexivity.
  - rewrite Hapi. reflexivity.
Defined.

End ErrorFacts.

(** ** The refresh timers *)

Section TimerFacts.
Import Effect.

Lemma cleared_snoc timer cs c :
  cleared timer (cs ++ [c])
  = cleared timer cs + (if decide (c = ClearInterval timer) then 1 else 0).
Proof.
  unfold cleared. rewrite filter_app, length_app. f_equal.
  rewrite filter_cons, filter_nil. now case_decide.
Qed.

Lemma clears_snoc cs c :
  clears (cs ++ [c]) = clears cs + (if is_clear c then 1 else 0).
Proof.
  unfold clears. rewrite List.filter_app, length_app. f_equal.
  simpl. now destruct (is_clear c).
Qed.

Ltac timer_arith :=
  repeat match goal with
         | |- context [decide ?P] => destruct (decide P); simplify_eq
         | H : context [decide ?P] |- _ => destruct (decide P); simplify_eq
         end;
  try lia.

Context {D : Type} `{EqDecision D}.

Lemma tidy_start : tidy (D := D) start.
Proof.
  unfold tidy, start; simpl. split_and!.
  - reflexivity.
  - intros timer ms H. inversion H.
  - intros timer H. inversion H.
  - intros timer H. lia.
  - reflexivity.
Qed.

Ltac in_calls :=
  repeat match goal with
         | H : _ ∈ _ ++ _ |- _ => apply elem_of_app in H as [H|H]
         | H : _ ∈ [_] |- _ => apply list_elem_of_singleton in H; simplify_eq
         | H : _ ∈ [] |- _ => inversion H
         end.

Lemma tidy_react (ev : lifecycle D) st st' :
  tidy st -> react ev st = Some st' -> tidy st'.
Proof.
  destruct st as [c [ar nx cs]]. unfold tidy; simpl.
  intros (Har & Hset & Hpend & Hold & Hnew) Hstep.
  assert (Hfresh : cleared nx cs = 0) by (apply Hnew; lia).
  destruct ev as [deps|deps| |timer], c as [[old interval]|]; simpl in Hstep;
    try discriminate.
  - (* mount *)
    simplify_eq; simpl in *. split_and!.
    + reflexivity.
    + intros timer ms Hin. in_calls; [|lia]. destruct (Hset _ _ Hin). lia.
    + intros timer Hin. in_calls. rewrite !cleared_snoc. timer_arith.
    + intros timer Hlt Hin. rewrite !cleared_snoc. timer_arith.
      rewrite Hold; [lia| |set_solver]. set_unfold. lia.
    + intros timer Hlt. rewrite !cleared_snoc. timer_arith. rewrite Hnew; lia.
  - (* render *)
    destruct (Hpend interval ltac:(set_solver)) as [Hi Hc].
    destruct (decide (deps = old)); simplify_eq; simpl in *;
      [split_and!; auto|].
    split_and!.
    + rewrite filter_cons, filter_nil. simpl. now case_decide.
    + intros timer ms Hin. in_calls; [|lia]. destruct (Hset _ _ Hin). lia.
    + intros timer Hin. in_calls. rewrite !cleared_snoc. timer_arith.
    + intros timer Hlt Hin. rewrite !cleared_snoc. timer_arith.
      rewrite Hold; [lia| |set_solver]. set_unfold. lia.
    + intros timer Hlt. rewrite !cleared_snoc. timer_arith. rewrite Hnew; lia.
  - (* unmount *)
    destruct (Hpend interval ltac:(set_solver)) as [Hi Hc].
    simplify_eq; simpl in *. split_and!.
    + rewrite filter_cons, filter_nil. simpl. now case_decide.
    + intros timer ms Hin. in_calls. now apply Hset.
    + intros timer Hin. inversion Hin.
    + intros timer Hlt _. rewrite cleared_snoc. timer_arith.
      rewrite Hold; [lia|lia|set_solver].
    + intros timer Hlt. rewrite cleared_snoc. timer_arith. rewrite Hnew; lia.
  - (* tick, mounted *)
    destruct (bool_decide _); simplify_eq; simpl in *. split_and!; auto.
    + intros t ms Hin. in_calls. now apply Hset.
    + intros t Hin. rewrite cleared_snoc. timer_arith.
      destruct (Hpend t Hin). lia.
    + intros t Hlt Hin. rewrite cleared_snoc. timer_arith. rewrite Hold; auto.
    + intros t Hlt. rewrite cleared_snoc. timer_arith. rewrite Hnew; auto.
  - (* tick, not mounted *)
    destruct (bool_decide _); simplify_eq; simpl in *. split_and!; auto.
    + intros t ms Hin. in_calls. now apply Hset.
    + intros t Hin. inversion Hin.
    + intros t Hlt Hin. rewrite cleared_snoc. timer_arith. rewrite Hold; auto.
    + intros t Hlt. rewrite cleared_snoc. timer_arith. rewrite Hnew; auto.
Qed.

Lemma tidy_run (evs : list (lifecycle D)) st st' :
  tidy st -> run evs st = Some st' -> tidy st'.
Proof.
  revert st. induction evs as [|ev evs IH]; simpl; intros st Hst Hrun.
  - now simplify_eq.
  - destruct (react ev st) as [st1|] eqn:Hstep; [|discriminate].
    eauto using tidy_react.
Qed.

(** While the dependencies stay the same, only unmounting clears. *)
Lemma clears_react deps (ev : lifecycle D) st st' :
  (forall d i, st.1 = Some (d, i) -> d = deps) ->
  passes deps ev ->
  react ev st = Some st' ->
  (forall d i, st'.1 = Some (d, i) -> d = deps)
  /\ clears (calls st'.2) = clears (calls st.2) + (if is_unmount ev then 1 else 0).
Proof.
  destruct st as [c [ar nx cs]]. simpl. intros Hdeps Hev Hstep.
  destruct ev as [d|d| |timer], c as [[old interval]|]; simpl in *;
    try discriminate.
  - simplify_eq; simpl. rewrite !clears_snoc. simpl.
    split; [intros; simplify_eq; reflexivity|lia].
  - rewrite (Hdeps old interval eq_refl) in Hstep. subst d.
    destruct (decide (deps = deps)); [|congruence]. simplify_eq; simpl.
    split; [intros; simplify_eq; reflexivity|lia].
  - simplify_eq; simpl. rewrite clears_snoc. simpl. split; [discriminate|lia].
  - destruct (bool_decide _); simplify_eq; simpl. rewrite clears_snoc. simpl.
    split; [eauto|lia].
  - destruct (bool_decide _); simplify_eq; simpl. rewrite clears_snoc. simpl.
    split; [discriminate|lia].
Qed.

Lemma clears_run deps (evs : list (lifecycle D)) st st' :
  (forall d i, st.1 = Some (d, i) -> d = deps) ->
  Forall (passes deps) evs ->
  run evs st = Some st' ->
  clears (calls st'.2) = clears (calls st.2) + unmounts evs.
Proof.
  revert st. induction evs as [|ev evs IH]; simpl; intros st Hdeps Hevs Hrun.
  - simplify_eq. unfold unmounts. simpl. now rewrite Nat.add_0_r.
  - destruct (react ev st) as [st1|] eqn:Hstep; [|discriminate].
    apply Forall_cons in Hevs as [Hev Hevs].
    destruct (clears_react deps ev st st1 Hdeps Hev Hstep) as [Hdeps1 Hc].
    unfold instance in *. rewrite (IH st1 Hdeps1 Hevs Hrun), Hc.
    unfold unmounts. simpl. destruct (is_unmount ev); simpl; lia.
Qed.

Lemma timers_ok_run deps (evs : list (lifecycle D)) st :
  Forall (passes deps) evs -> run evs start = Some st -> timers_ok evs st.
Proof.
  intros Hevs Hrun.
  destruct (tidy_run evs start st tidy_start Hrun) as (Har & Hset & Hpend & Hold & Hnew).
  unfold timers_ok. split_and!.
  - intros timer ms Hin. now destruct (Hset timer ms Hin).
  - intros timer ms Hin. destruct (Hset timer ms Hin) as [_ Hlt].
    case_bool_decide.
    + now destruct (Hpend timer).
    + now apply Hold.
  - exact Har.
  - rewrite (clears_run deps evs start st); auto. simpl. discriminate.
Qed.

End TimerFacts.

(** C6: in every run of the page and of the panel (which the page
    renders with the constant [API_BASE]), each interval is armed
    with a period of 30000 ms; an interval has been cleared exactly
    once unless it is the one the pending cleanup holds, which has
    not been cleared, so only that one is armed and none is once the
    component is torn down; and [clearInterval] was called as many
    times as the component was unmounted. *)
Theorem refresh_timers :
  (forall (evs : list Dashboard.lifecycle) st,
      Effect.run evs Effect.start = Some st -> Effect.timers_ok evs st)
  /\ (forall url (evs : list StockAlert.lifecycle) st,
        Forall (Effect.passes (Dashboard.API_BASE url)) evs ->
        Effect.run evs Effect.start = Some st -> Effect.timers_ok evs st).
Proof.
  split.
  - intros evs st Hrun. apply (timers_ok_run tt); [|exact Hrun].
    apply Forall_forall. intros [[]|[]| |t] _; exact I || reflexivity.
  - intros url evs st Hevs Hrun. now apply (timers_ok_run (Dashboard.API_BASE url)).
Qed.

Lemma refresh_timers_witness :
  let api := Dashboard.API_BASE None in
  let evs := [Effect.Mount api; Effect.Tick 0; Effect.Render api; Effect.Unmount;
              Effect.Mount api; Effect.Tick 1; Effect.Unmount] in
  exists st,
    Effect.run evs Effect.start = Some st
    /\ Effect.calls st.2
       = [Effect.Refresh; Effect.SetInterval 0 30000; Effect.Refresh;
          Effect.ClearInterval 0;
          Effect.Refresh; Effect.SetInterval 1 30000; Effect.Refresh;
          Effect.ClearInterval 1]
    /\ Effect.timers_ok evs st.
Proof.
  intros api evs. eexists. split; [reflexivity|]. split; [reflexivity|].
  apply (proj2 refresh_timers None); [|reflexivity].
  repeat constructor.
Defined.

(** ** Sorting the product table *)

Section SortFacts.
Import ProductTable.

Lemma insert_perm cmp x l : insert cmp x l ≡ₚ x :: l.
Proof.
  induction l as [|y l IH]; simpl; [reflexivity|].
  destruct (cmp x y <=? 0)%Z; [reflexivity|].
  rewrite IH. apply Permutation_swap.
Qed.

Lemma sort_perm cmp l : sort cmp l ≡ₚ l.
Proof.
  unfold sort. induction l as [|x l IH]; simpl; [reflexivity|].
  now rewrite insert_perm, IH.
Qed.

Lemma alloc_fresh arr (h : gmap nat (list product)) : h !! (alloc arr h).1 = None.
Proof. unfold alloc; simpl. apply not_elem_of_dom, is_fresh. Qed.

Lemma alloc_lookup arr (h : gmap nat (list product)) :
  (alloc arr h).2 !! (alloc arr h).1 = Some arr.
Proof. unfold alloc; simpl. apply lookup_insert_eq. Qed.

Lemma alloc_frame arr (h : gmap nat (list product)) b :
  is_Some (h !! b) -> (alloc arr h).2 !! b = h !! b.
Proof.
  intros [x Hb]. unfold alloc; simpl. apply lookup_insert_ne.
  intros <-. pose proof (alloc_fresh arr h) as Hf. unfold alloc in Hf; simpl in Hf.
  congruence.
Qed.

(** C7: whatever the conversion of strings to numbers, the field
    and the direction, sorting an array yields a new array that is a
    permutation of the input, and leaves every array of the heap,
    the input among them, as it was; a value that is not an array
    yields a new empty array. *)
Theorem sorted_permutes
    (StringToNumber : string -> option Q) (h : gmap nat (list product))
    (sortField sortDir : string) :
  (forall addr arr,
      h !! addr = Some arr ->
      exists out,
        (sorted StringToNumber h (ArrayRef addr) sortField sortDir).2
          !! (sorted StringToNumber h (ArrayRef addr) sortField sortDir).1 = Some out
        /\ out ≡ₚ arr
        /\ (sorted StringToNumber h (ArrayRef addr) sortField sortDir).1 <> addr
        /\ forall b,
             is_Some (h !! b) ->
             (sorted StringToNumber h (ArrayRef addr) sortField sortDir).2 !! b = h !! b)
  /\ (sorted StringToNumber h NotArray sortField sortDir).2
       !! (sorted StringToNumber h NotArray sortField sortDir).1 = Some []
  /\ (forall b,
        is_Some (h !! b) ->
        (sorted StringToNumber h NotArray sortField sortDir).2 !! b = h !! b).
Proof.
  split_and!.
  - intros addr arr Harr. unfold sorted. rewrite Harr. simpl.
    set (cmp := comparator StringToNumber sortField sortDir).
    pose proof (is_fresh (dom h)) as Hfresh.
    assert (Hne : fresh (dom h) <> addr).
    { intros E. apply Hfresh. rewrite E. apply elem_of_dom. eauto. }
    exists (sort cmp arr). split_and!.
    + rewrite lookup_alter_eq, lookup_insert_eq. reflexivity.
    + apply sort_perm.
    + exact Hne.
    + intros b Hb. rewrite lookup_alter_ne, lookup_insert_ne; [reflexivity| |].
      * intros E. apply Hfresh. rewrite E. now apply elem_of_dom.
      * intros E. apply Hfresh. rewrite E. now apply elem_of_dom.
  - apply alloc_lookup.
  - intros b Hb. now apply alloc_frame.
Qed.

Lemma sorted_permutes_witness :
  let h : gmap nat (list product) :=
    {[ 4 := [ [("name", VStr "pear"); ("unit_price", VNum 3)];
              [("name", VStr "Apple")];
              [("name", VStr "fig"); ("unit_price", VNum (1 # 2))] ] ]} in
  exists out,
    (sorted (fun _ => None) h (ArrayRef 4) "name" "desc").2
      !! (sorted (fun _ => None) h (ArrayRef 4) "name" "desc").1 = Some out
    /\ out = [ [("name", VStr "pear"); ("unit_price", VNum 3)];
               [("name", VStr "fig"); ("unit_price", VNum (1 # 2))];
               [("name", VStr "Apple")] ]
    /\ out ≡ₚ [ [("name", VStr "pear"); ("unit_price", VNum 3)];
                [("name", VStr "Apple")];
                [("name", VStr "fig"); ("unit_price", VNum (1 # 2))] ]
    /\ (sorted (fun _ => None) h (ArrayRef 4) "name" "desc").2 !! 4 = h !! 4.
Proof.
  intros h.
  destruct (sorted_permutes (fun _ => None) h "name" "desc") as (Harr & _ & _).
  destruct (Harr 4 _ eq_refl) as (out & Hout & Hperm & _ & Hframe).
  exists out. split_and!.
  - exact Hout.
  - vm_compute in Hout. now injection Hout as <-.
  - exact Hperm.
  - apply Hframe. now eexists.
Defined.

End SortFacts.

(** ** More on strings *)

Lemma trimEnd_idem s : JS.trimEnd (JS.trimEnd s) = JS.trimEnd s.
Proof.
  induction s as [|c r IH]; simpl; [reflexivity|].
  destruct (JS.trimEnd r) as [|d r'] eqn:Hr.
  - destruct (JS.is_white c) eqn:Hc; simpl; [reflexivity|now rewrite Hc].
  - simpl in IH. simpl. now rewrite IH.
Qed.

Lemma trimStart_head s :
  JS.trimStart s = "" \/ exists c r, JS.trimStart s = String c r /\ JS.is_white c = false.
Proof.
  induction s as [|c r IH]; simpl; [now left|].
  destruct (JS.is_white c) eqn:Hc; [exact IH|]. right. eauto.
Qed.

Lemma trimEnd_keeps_head c r :
  JS.is_white c = false -> exists r', JS.trimEnd (String c r) = String c r'.
Proof.
  intros Hc. simpl. destruct (JS.trimEnd r); [rewrite Hc|]; eauto.
Qed.

Lemma trim_idem s : JS.trim (JS.trim s) = JS.trim s.
Proof.
  unfold JS.trim. destruct (trimStart_head s) as [->|(c & r & -> & Hc)];
    [reflexivity|].
  destruct (trimEnd_keeps_head c r Hc) as [r' Hr]. rewrite Hr.
  cbn [JS.trimStart]. rewrite Hc, <- Hr. apply trimEnd_idem.
Qed.

Lemma occurs_trimStart c s : Text.occurs c (JS.trimStart s) = true -> Text.occurs c s = true.
Proof.
  induction s as [|d r IH]; simpl; [auto|].
  destruct (JS.is_white d); [|auto].
  intros H. rewrite (IH H). apply orb_true_r.
Qed.

Lemma occurs_trimEnd c s : Text.occurs c (JS.trimEnd s) = true -> Text.occurs c s = true.
Proof.
  induction s as [|d r IH]; simpl; [auto|].
  destruct (JS.trimEnd r) as [|e r'].
  - destruct (JS.is_white d); simpl; [discriminate|].
    rewrite orb_false_r. intros ->. reflexivity.
  - simpl in *. destruct (Ascii.eqb d c); [reflexivity|]. simpl. exact IH.
Qed.

Lemma occurs_trim c s : Text.occurs c (JS.trim s) = true -> Text.occurs c s = true.
Proof. intros H. now apply occurs_trimStart, occurs_trimEnd. Qed.

Lemma splitBy_cons sep s : exists seg segs, Text.splitBy sep s = seg :: segs.
Proof.
  destruct s as [|c r]; simpl; [eauto|].
  destruct (sep c); [eauto|]. destruct (Text.splitBy sep r); eauto.
Qed.

Lemma splitBy_segments sep s seg c :
  seg ∈ Text.splitBy sep s -> Text.occurs c seg = true -> sep c = false.
Proof.
  revert seg. induction s as [|d r IH]; simpl; intros seg Hin Hc.
  - apply list_elem_of_singleton in Hin. subst. discriminate.
  - destruct (sep d) eqn:Hd.
    + apply elem_of_cons in Hin as [->|Hin]; [discriminate|eauto].
    + destruct (splitBy_cons sep r) as (seg0 & segs & E). rewrite E in *.
      apply elem_of_cons in Hin as [->|Hin].
      * simpl in Hc. destruct (Ascii.eqb_spec d c) as [<-|_]; [exact Hd|].
        apply (IH seg0); [set_solver|exact Hc].
      * apply (IH seg); [set_solver|exact Hc].
Qed.

Lemma split_no_sep sep s : Text.occurs sep s = false -> JS.split sep s = [s].
Proof.
  induction s as [|c r IH]; simpl; [reflexivity|].
  destruct (Ascii.eqb c sep); simpl; [discriminate|].
  intros H. now rewrite (IH H).
Qed.

Lemma split_app_sep sep s rest :
  Text.occurs sep s = false ->
  JS.split sep (s +:+ String sep rest) = s :: JS.split sep rest.
Proof.
  induction s as [|c r IH]; simpl.
  - intros _. now rewrite Ascii.eqb_refl.
  - destruct (Ascii.eqb c sep); simpl; [discriminate|].
    intros H. now rewrite (IH H).
Qed.

Lemma split_join sep (segs : list string) :
  segs <> [] ->
  (forall seg, seg ∈ segs -> Text.occurs sep seg = false) ->
  JS.split sep (JS.join sep segs) = segs.
Proof.
  induction segs as [|seg segs IH]; [congruence|]. intros _ Hsegs.
  destruct segs as [|seg' segs].
  - simpl. apply split_no_sep, Hsegs. set_solver.
  - change (JS.join sep (seg :: seg' :: segs))
      with (seg +:+ String sep (JS.join sep (seg' :: segs))).
    rewrite split_app_sep by (apply Hsegs; set_solver).
    rewrite IH; [reflexivity|discriminate|]. intros s Hs. apply Hsegs. set_solver.
Qed.

(** ** More on the [.env] loader *)

Section DotenvMore.
Import Dotenv.

Lemma truthy_false s : JS.truthy s = false -> s = "".
Proof. destruct s; [reflexivity|discriminate]. Qed.

Lemma env_truthy_insert (env : gmap string string) k v :
  env_truthy (<[k := v]> env) k = JS.truthy v.
Proof. unfold env_truthy. now rewrite lookup_insert_eq. Qed.

Lemma load_line_truthy (env : gmap string string) line k :
  env_truthy env k = true -> env_truthy (load_line env line) k = true.
Proof.
  intros Hk. unfold load_line.
  destruct (parse_line line) as [[key val]|]; [|exact Hk].
  destruct (env_truthy env key) eqn:Hkey; simpl; [exact Hk|].
  destruct (decide (key = k)) as [->|Hne]; [congruence|].
  unfold env_truthy in *. now rewrite lookup_insert_ne.
Qed.

Lemma fold_load_truthy lines (env : gmap string string) k :
  env_truthy env k = true -> env_truthy (fold_left load_line lines env) k = true.
Proof.
  revert env. induction lines as [|l lines IH]; simpl; auto using load_line_truthy.
Qed.

Lemma load_line_defines (env : gmap string string) line k v :
  parse_line line = Some (k, v) -> JS.truthy v = true ->
  env_truthy (load_line env line) k = true.
Proof.
  intros Hp Hv. unfold load_line. rewrite Hp.
  destruct (env_truthy env k) eqn:Hk; simpl; [exact Hk|].
  now rewrite env_truthy_insert.
Qed.

Lemma load_line_again (env : gmap string string) line :
  load_line (load_line env line) line = load_line env line.
Proof.
  unfold load_line. destruct (parse_line line) as [[k v]|] eqn:Hp; [|reflexivity].
  destruct (env_truthy env k) eqn:Hk; simpl.
  - now rewrite Hk.
  - rewrite env_truthy_insert. destruct (JS.truthy v); simpl; [reflexivity|].
    apply insert_insert_eq.
Qed.

Lemma load_line_empty (env : gmap string string) line k :
  env !! k = Some "" ->
  env_truthy (load_line env line) k = true \/ load_line env line !! k = Some "".
Proof.
  intros Hk. unfold load_line.
  destruct (parse_line line) as [[k2 v2]|]; [|now right].
  destruct (env_truthy env k2); simpl; [now right|].
  destruct (decide (k2 = k)) as [->|Hne].
  - destruct (JS.truthy v2) eqn:Hv2.
    + left. now rewrite env_truthy_insert.
    + right. apply truthy_false in Hv2. subst. apply lookup_insert_eq.
  - right. now rewrite lookup_insert_ne.
Qed.

Lemma load_line_settled (env : gmap string string) l1 l2 :
  load_line env l1 = env -> load_line (load_line env l2) l1 = load_line env l2.
Proof.
  intros H1. unfold load_line at 1.
  destruct (parse_line l1) as [[k v]|] eqn:Hp; [|reflexivity].
  destruct (env_truthy env k) eqn:Hk.
  - now rewrite load_line_truthy.
  - assert (Hlook : env !! k = Some v).
    { unfold load_line in H1. rewrite Hp, Hk in H1. simpl in H1.
      rewrite <- H1. apply lookup_insert_eq. }
    assert (Hv : v = "").
    { apply truthy_false. unfold env_truthy in Hk. now rewrite Hlook in Hk. }
    subst v. destruct (load_line_empty env l2 k Hlook) as [Ht|Hl].
    + now rewrite Ht.
    + destruct (negb _); [|reflexivity]. now apply insert_id.
Qed.

Lemma fold_load_settled lines (env : gmap string string) line :
  load_line env line = env ->
  load_line (fold_left load_line lines env) line = fold_left load_line lines env.
Proof.
  revert env. induction lines as [|l lines IH]; simpl; intros env H; [exact H|].
  apply IH. now apply load_line_settled.
Qed.

Lemma fold_load_all_settled lines (env : gmap string string) line :
  line ∈ lines ->
  load_line (fold_left load_line lines env) line = fold_left load_line lines env.
Proof.
  revert env. induction lines as [|l lines IH]; simpl; intros env Hin.
  - inversion Hin.
  - apply elem_of_cons in Hin as [->|Hin]; [|now apply IH].
    apply fold_load_settled, load_line_again.
Qed.

Lemma fold_load_fixed lines (env : gmap string string) :
  (forall line, line ∈ lines -> load_line env line = env) ->
  fold_left load_line lines env = env.
Proof.
  induction lines as [|l lines IH]; simpl; intros H; [reflexivity|].
  rewrite (H l) by set_solver. apply IH. intros line Hl. apply H. set_solver.
Qed.

Lemma load_line_inherited (env : gmap string string) line k :
  inherited k = true -> env !! k = None -> load_line env line !! k = None.
Proof.
  intros Hi Hk. unfold load_line.
  destruct (parse_line line) as [[key val]|]; [|exact Hk].
  destruct (decide (key = k)) as [->|Hne].
  - unfold env_truthy. now rewrite Hk, Hi.
  - destruct (negb _); [|exact Hk]. now rewrite lookup_insert_ne.
Qed.

Lemma fold_load_inherited lines (env : gmap string string) k :
  inherited k = true -> env !! k = None ->
  fold_left load_line lines env !! k = None.
Proof.
  intros Hi. revert env. induction lines as [|l lines IH]; simpl; intros env Hk;
    [exact Hk|].
  apply IH. now apply load_line_inherited.
Qed.

(** X1: once the file is loaded, [process.env[k]] reads as truthy for
    every name [k] that a line of the file defines with a value that
    is not empty, whatever the environment was.  Unless [k] names a
    property of [Object.prototype], the variable itself then holds a
    non-empty string; a name found on the prototype and not set
    before is never set by the file. *)
Theorem load_dotenv_defines (env : gmap string string) content line k v :
  line ∈ JS.split "010"%char content ->
  parse_line line = Some (k, v) ->
  JS.truthy v = true ->
  env_truthy (load_dotenv env (Content content)) k = true
  /\ (inherited k = false ->
      exists v', load_dotenv env (Content content) !! k = Some v'
                 /\ JS.truthy v' = true)
  /\ (inherited k = true -> env !! k = None ->
      load_dotenv env (Content content) !! k = None).
Proof.
  intros Hin Hp Hv.
  assert (Ht : env_truthy (load_dotenv env (Content content)) k = true).
  { revert Hin. simpl. generalize (JS.split "010"%char content).
    intros lines. revert env.
    induction lines as [|l lines IH]; simpl; intros env Hin.
    - inversion Hin.
    - apply elem_of_cons in Hin as [->|Hin]; [|now apply IH].
      apply fold_load_truthy. eapply load_line_defines; eauto. }
  split; [exact Ht|]. split.
  - intros Hi. unfold env_truthy in Ht.
    destruct (load_dotenv env (Content content) !! k) as [v'|]; [|congruence].
    now exists v'.
  - intros Hi Hk. now apply fold_load_inherited.
Qed.

Lemma load_dotenv_defines_witness :
  let env : gmap string string := {[ "PATH" := "/usr/bin" ]} in
  let content :=
    "# keys" +:+ String "010"%char (" OPENAI_API_KEY = sk-1 "
      +:+ String "010"%char "toString=x") in
  (exists v', load_dotenv env (Content content) !! "OPENAI_API_KEY" = Some v'
              /\ JS.truthy v' = true)
  /\ load_dotenv env (Content content) !! "toString" = None.
Proof.
  intros env content. split.
  - apply (load_dotenv_defines env content " OPENAI_API_KEY = sk-1 "
             "OPENAI_API_KEY" "sk-1");
      [|reflexivity|reflexivity|reflexivity].
    simpl. set_solver.
  - apply (load_dotenv_defines env content "toString=x" "toString" "x");
      [|reflexivity|reflexivity|reflexivity|reflexivity].
    simpl. set_solver.
Defined.

(** X2: loading the same file a second time changes nothing. *)
Theorem load_dotenv_idempotent (env : gmap string string) f :
  load_dotenv (load_dotenv env f) f = load_dotenv env f.
Proof.
  destruct f as [| |content]; simpl; try reflexivity.
  apply fold_load_fixed. intros line Hin. now apply fold_load_all_settled.
Qed.

End DotenvMore.

(** ** The build request *)

Section BuildRequestFacts.
Import BuildRequest Json.

Lemma payload_lookups (f : form) :
  payload f !! "enableNoBundle" = None
  /\ payload f !! "model" = Some (Str (if proModeToggle f then model f else "auto"))
  /\ payload f !! "projectName"
     = Some (Str (or_else (JS.trim (projectName f)) "GeneratedApp"))
  /\ payload f !! "prompt" = Some (Str (JS.trim (promptInput f))).
Proof. destruct f. repeat split; vm_compute; reflexivity. Qed.

Lemma build_args_without_noBundle (local_overlord_py agent_brain_py : string)
    (req : gmap string value) :
  build_args local_overlord_py agent_brain_py (delete "noBundle" req)
  = build_args local_overlord_py agent_brain_py req.
Proof.
  unfold build_args. now rewrite !lookup_delete_ne by discriminate.
Qed.

(** X3: the no-bundle checkbox has no effect on the command line:
    the form sends it under the key [noBundle], the handler reads
    [enableNoBundle], which no request of the form carries. *)
Theorem no_bundle_checkbox_ignored (local_overlord_py agent_brain_py : string)
    (f : form) (b : bool) :
  payload (set_optNoBundle b f) !! "enableNoBundle" = None
  /\ payload (set_optNoBundle b f) !! "noBundle" = Some (Bool b)
  /\ build_args local_overlord_py agent_brain_py (payload (set_optNoBundle b f))
     = build_args local_overlord_py agent_brain_py (payload f).
Proof.
  destruct f. split_and!; [vm_compute; reflexivity..|].
  rewrite <- build_args_without_noBundle.
  rewrite <- (build_args_without_noBundle _ _ (payload _)).
  f_equal; try (vm_compute; reflexivity).
Qed.

Lemma or_else_truthy s fallback :
  JS.truthy fallback = true -> JS.truthy (or_else s fallback) = true.
Proof. intros H. unfold or_else. now destruct (JS.truthy s) eqn:Hs. Qed.

Lemma isLocalModel_truthy m : isLocalModel m = true -> JS.truthy m = true.
Proof. destruct m; [discriminate|reflexivity]. Qed.

Lemma with_value_truthy flag v :
  JS.truthy flag = true -> Forall (fun a => truthy a = true) (with_value flag v).
Proof.
  intros Hf. unfold with_value. destruct (truthy v) eqn:Hv; repeat constructor; auto.
Qed.

Lemma with_flag_truthy flag v :
  JS.truthy flag = true -> Forall (fun a => truthy a = true) (with_flag flag v).
Proof.
  intros Hf. unfold with_flag. destruct (truthy v) eqn:Hv; repeat constructor; auto.
Qed.

(** X4: when the request names a project and a prompt, and carries a
    model string, the command line is built and none of its
    arguments is empty or undefined: an option is passed only with a
    value, and an empty model falls back to gpt-4o. *)
Theorem build_args_never_empty (local_overlord_py agent_brain_py : string)
    (req : gmap string value) (model : string) :
  JS.truthy local_overlord_py = true ->
  JS.truthy agent_brain_py = true ->
  truthy (req !! "projectName") = true ->
  truthy (req !! "prompt") = true ->
  req !! "model" = Some (Str model) ->
  exists args,
    build_args local_overlord_py agent_brain_py req = Return args
    /\ Forall (fun a => truthy a = true) args.
Proof.
  intros Hlo Hab Hname Hprompt Hmodel. unfold build_args. rewrite Hmodel.
  destruct (isLocalModel model) eqn:Hlocal; eexists; (split; [reflexivity|]).
  - repeat constructor; auto. simpl. now apply isLocalModel_truthy.
  - repeat (apply Forall_app; split);
      try (apply with_value_truthy; reflexivity);
      try (apply with_flag_truthy; reflexivity).
    repeat constructor; auto. simpl. now apply or_else_truthy.
Qed.

Lemma build_args_never_empty_witness :
  let f := {| projectName := "  "; promptInput := " a todo app "; mode := "new";
              scale := "app"; platform := "python"; model := "DeepSeek-Coder";
              phase := "all"; budgetId := "5"; fixCycles := ""; sourcePath := "";
              focus := ""; proModeToggle := true; optDocker := true;
              optReadme := false; optDebug := false; optSetup := false;
              optVoice := false; optNoBundle := true; optClean := false;
              optDecompile := false; archModel := ""; engModel := "";
              reviewModel := ""; localModel := "" |} in
  build_args "local_overlord.py" "agent_brain.py" (payload f)
  = Return [Some (Str "local_overlord.py"); Some (Str "GeneratedApp");
            Some (Str "a todo app"); Some (Str "--model");
            Some (Str "DeepSeek-Coder")].
Proof.
  intros f.
  destruct (build_args_never_empty "local_overlord.py" "agent_brain.py" (payload f)
              "DeepSeek-Coder" eq_refl eq_refl eq_refl eq_refl eq_refl)
    as (args & Hargs & _).
  rewrite Hargs. vm_compute in Hargs. now injection Hargs as <-.
Defined.

(** X5: with the Pro switch off, the request does not depend on the
    controls of the Pro panel (scale, platform, model, phase and the
    four model overrides): the model sent is "auto", which is never
    run by the local script. *)
Theorem pro_controls_ignored_when_off (f g : form) :
  proModeToggle f = false ->
  proModeToggle g = false ->
  same_basic_controls f g ->
  payload f = payload g
  /\ payload f !! "model" = Some (Str "auto")
  /\ isLocalModel "auto" = false.
Proof.
  intros Hf Hg Hsame. destruct f, g. unfold same_basic_controls in Hsame.
  simpl in Hf, Hg, Hsame. destruct_and!. subst. split_and!.
  - reflexivity.
  - vm_compute. reflexivity.
  - reflexivity.
Qed.

Lemma pro_controls_ignored_when_off_witness :
  let f := {| projectName := "Shop"; promptInput := "a shop"; mode := "new";
              scale := "app"; platform := "python"; model := "deepseek-coder";
              phase := "all"; budgetId := "5"; fixCycles := "3"; sourcePath := "";
              focus := ""; proModeToggle := false; optDocker := true;
              optReadme := false; optDebug := false; optSetup := false;
              optVoice := false; optNoBundle := false; optClean := false;
              optDecompile := false; archModel := "o1"; engModel := "";
              reviewModel := ""; localModel := "" |} in
  let g := {| projectName := "Shop"; promptInput := "a shop"; mode := "new";
              scale := "script"; platform := "web"; model := "gpt-4o";
              phase := "plan"; budgetId := "5"; fixCycles := "3"; sourcePath := "";
              focus := ""; proModeToggle := false; optDocker := true;
              optReadme := false; optDebug := false; optSetup := false;
              optVoice := false; optNoBundle := false; optClean := false;
              optDecompile := false; archModel := ""; engModel := "x";
              reviewModel := ""; localModel := "" |} in
  payload f = payload g.
Proof.
  intros f g.
  apply (pro_controls_ignored_when_off f g); [reflexivity|reflexivity|].
  unfold same_basic_controls. repeat split.
Defined.

End BuildRequestFacts.

(** ** The key pool and the child's environment *)

Section KeyPoolFacts.
Import BuildRequest Json.

Lemma pool_keys_elem raw k :
  k ∈ pool_keys raw ->
  JS.truthy k = true /\ exists seg, seg ∈ Text.splitBy is_key_sep raw /\ k = JS.trim seg.
Proof.
  unfold pool_keys. rewrite list_elem_of_In, filter_In, in_map_iff.
  intros [(seg & <- & Hseg) Hk]. split; [exact Hk|].
  exists seg. now rewrite list_elem_of_In.
Qed.

Lemma pool_key_no_sep raw k c :
  k ∈ pool_keys raw -> is_key_sep c = true -> Text.occurs c k = false.
Proof.
  intros Hk Hc. destruct (pool_keys_elem raw k Hk) as (_ & seg & Hseg & ->).
  destruct (Text.occurs c (JS.trim seg)) eqn:Ho; [|reflexivity].
  apply occurs_trim in Ho. pose proof (splitBy_segments _ _ _ _ Hseg Ho). congruence.
Qed.

(** X6: every key read from a settings field is a non-empty string
    without white space around it, and without a comma or a line feed
    in it. *)
Theorem pool_keys_clean (raw k : string) :
  k ∈ pool_keys raw ->
  k <> ""
  /\ JS.trim k = k
  /\ Text.occurs "," k = false
  /\ Text.occurs "010" k = false.
Proof.
  intros Hk. destruct (pool_keys_elem raw k Hk) as (Ht & seg & Hseg & Hk').
  split_and!.
  - intros ->. discriminate.
  - subst k. apply trim_idem.
  - now apply (pool_key_no_sep raw).
  - now apply (pool_key_no_sep raw).
Qed.

Lemma pool_keys_clean_witness :
  let raw := " sk-a , " +:+ String "010"%char ("sk-b,," +:+ String "010"%char "") in
  pool_keys raw = ["sk-a"; "sk-b"]
  /\ JS.trim "sk-a" = "sk-a" /\ Text.occurs "," "sk-a" = false.
Proof.
  intros raw. split; [reflexivity|].
  destruct (pool_keys_clean raw "sk-a") as (_ & Ht & Hc & _); [|now split].
  vm_compute. set_solver.
Defined.

(** X7: the pool variable lists the keys: cut at the commas, the
    joined keys of a field give back exactly the keys. *)
Theorem pool_round_trip (raw : string) :
  pool_keys raw <> [] ->
  JS.split "," (JS.join "," (pool_keys raw)) = pool_keys raw.
Proof.
  intros Hne. apply split_join; [exact Hne|].
  intros k Hk. now apply (pool_key_no_sep raw).
Qed.

Lemma pool_round_trip_witness :
  let raw := "sk-a, sk-b" +:+ String "010"%char " sk-c " in
  JS.join "," (pool_keys raw) = "sk-a,sk-b,sk-c"
  /\ JS.split "," (JS.join "," (pool_keys raw)) = ["sk-a"; "sk-b"; "sk-c"].
Proof.
  intros raw. split; [reflexivity|].
  rewrite (pool_round_trip raw); [reflexivity|discriminate].
Defined.

Lemma add_keys_other single pool field (m : gmap string string) name :
  name <> single -> name <> pool ->
  add_keys single pool field m !! name = m !! name.
Proof.
  intros Hs Hp. unfold add_keys.
  destruct (pool_keys (default "" field)) as [|k [|k' rest]]; [reflexivity| |].
  - now rewrite lookup_insert_ne.
  - now rewrite !lookup_insert_ne.
Qed.

Lemma add_keys_single single pool field (m : gmap string string) :
  single <> pool ->
  add_keys single pool field m !! single
  = match pool_keys (default "" field) with
    | k :: _ => Some k
    | [] => m !! single
    end.
Proof.
  intros Hne. unfold add_keys.
  destruct (pool_keys (default "" field)) as [|k [|k' rest]]; [reflexivity| |].
  - apply lookup_insert_eq.
  - rewrite lookup_insert_ne by congruence. apply lookup_insert_eq.
Qed.

Lemma poolEnv_openai s :
  poolEnv (Settings s) !! "OPENAI_API_KEY"
  = head (pool_keys (default "" (openaiKey s))).
Proof.
  unfold poolEnv. rewrite !add_keys_other by discriminate.
  rewrite add_keys_single by discriminate.
  now destruct (pool_keys _).
Qed.

Lemma poolEnv_other f name :
  name ∉ ["OPENAI_API_KEY"; "OPENAI_API_KEYS"; "GROQ_API_KEY"; "GROQ_API_KEYS";
          "GEMINI_API_KEY"; "GEMINI_API_KEYS"; "ANTHROPIC_API_KEY";
          "ANTHROPIC_API_KEYS"] ->
  poolEnv f !! name = None.
Proof.
  intros Hname. destruct f as [| | |s]; try apply lookup_empty.
  unfold poolEnv. rewrite !add_keys_other by set_solver. apply lookup_empty.
Qed.

Lemma child_env_openai (env : gmap string string) (f : settings_file) :
  child_env env f !! "OPENAI_API_KEY"
  = match f with
    | Settings s =>
        match pool_keys (default "" (openaiKey s)) with
        | k :: _ => Some k
        | [] => env !! "OPENAI_API_KEY"
        end
    | _ => env !! "OPENAI_API_KEY"
    end.
Proof.
  unfold child_env. rewrite !lookup_insert_ne by discriminate. rewrite lookup_union.
  destruct f as [| | |s];
    try (cbn [poolEnv]; rewrite lookup_empty; now destruct (env !! _)).
  rewrite poolEnv_openai.
  destruct (pool_keys _) as [|k rest]; simpl; now destruct (env !! _).
Qed.

(** X8: what the python child sees.  The two encoding variables are
    always set; the first OpenAI key of [settings.json], when there
    is one, is passed as OPENAI_API_KEY whatever the environment
    holds, and the environment's value is passed otherwise; a variable
    that is none of the key variables or encoding variables is passed
    on as it is. *)
Theorem child_env_precedence (env : gmap string string) (f : settings_file) :
  child_env env f !! "PYTHONIOENCODING" = Some "utf-8"
  /\ child_env env f !! "PYTHONUTF8" = Some "1"
  /\ child_env env f !! "OPENAI_API_KEY"
     = match f with
       | Settings s =>
           match pool_keys (default "" (openaiKey s)) with
           | k :: _ => Some k
           | [] => env !! "OPENAI_API_KEY"
           end
       | _ => env !! "OPENAI_API_KEY"
       end
  /\ forall name,
       name ∉ ["PYTHONIOENCODING"; "PYTHONUTF8"; "OPENAI_API_KEY"; "OPENAI_API_KEYS";
               "GROQ_API_KEY"; "GROQ_API_KEYS"; "GEMINI_API_KEY"; "GEMINI_API_KEYS";
               "ANTHROPIC_API_KEY"; "ANTHROPIC_API_KEYS"] ->
       child_env env f !! name = env !! name.
Proof.
  split_and!.
  - unfold child_env. rewrite lookup_insert_ne by discriminate. apply lookup_insert_eq.
  - apply lookup_insert_eq.
  - apply child_env_openai.
  - intros name Hname. unfold child_env. rewrite !lookup_insert_ne by set_solver.
    rewrite lookup_union, poolEnv_other by set_solver. now destruct (env !! name).
Qed.

Lemma pool_keys_truthy raw : pool_keys raw <> [] -> JS.truthy raw = true.
Proof. destruct raw; [intros H; now contradiction H|reflexivity]. Qed.

(** X9: a key the build would hand to the child is reported by
    [check-api-keys]: when the child's OPENAI_API_KEY is not empty and
    the handler answers, its report says [openai: true]. *)
Theorem reported_when_used (env : gmap string string) (f : settings_file)
    (v : string) (r : key_report) :
  child_env env f !! "OPENAI_API_KEY" = Some v ->
  JS.truthy v = true ->
  check_api_keys env f = Return r ->
  openai r = true.
Proof.
  intros Hchild Hv Hcheck.
  rewrite child_env_openai in Hchild.
  assert (Hfield : forall s,
             env_or_field env "OPENAI_API_KEY" s openaiKey = Some true
             \/ (Dotenv.env_truthy env "OPENAI_API_KEY" = false
                 /\ env_or_field env "OPENAI_API_KEY" s openaiKey
                    = option_map (fun s => JS.truthy (default "" (openaiKey s))) s)).
  { intros s. unfold env_or_field.
    destruct (Dotenv.env_truthy env "OPENAI_API_KEY"); [now left|right].
    split; [reflexivity|now destruct s]. }
  unfold check_api_keys in Hcheck.
  set (s := match f with
            | Settings s => Some s
            | NullSettings => None
            | _ => Some no_settings
            end) in *.
  destruct (Hfield s) as [Ho|[Henv Ho]]; rewrite Ho in Hcheck.
  - destruct (env_or_field env "GEMINI_API_KEY" s geminiKey);
      destruct (env_or_field env "ANTHROPIC_API_KEY" s anthropicKey);
      destruct (env_or_field env "GROQ_API_KEY" s groqKey);
      simplify_eq; reflexivity.
  - assert (Hs : exists s0, f = Settings s0
                   /\ pool_keys (default "" (openaiKey s0)) <> []).
    { destruct f as [| | |s0];
        try (unfold Dotenv.env_truthy in Henv; rewrite Hchild, Hv in Henv;
             discriminate).
      exists s0. split; [reflexivity|]. intros E. rewrite E in Hchild.
      unfold Dotenv.env_truthy in Henv. rewrite Hchild, Hv in Henv. discriminate. }
    destruct Hs as (s0 & -> & Hkeys). apply pool_keys_truthy in Hkeys.
    subst s. simpl in Hcheck. rewrite Hkeys in Hcheck.
    destruct (env_or_field env "GEMINI_API_KEY" (Some s0) geminiKey);
      destruct (env_or_field env "ANTHROPIC_API_KEY" (Some s0) anthropicKey);
      destruct (env_or_field env "GROQ_API_KEY" (Some s0) groqKey);
      simplify_eq; reflexivity.
Qed.

Lemma reported_when_used_witness :
  let s := {| openaiKey := Some " sk-a , sk-b"; groqKey := None;
              geminiKey := None; anthropicKey := None |} in
  exists r,
    check_api_keys {[ "OPENAI_API_KEY" := "" ]} (Settings s) = Return r
    /\ child_env {[ "OPENAI_API_KEY" := "" ]} (Settings s) !! "OPENAI_API_KEY"
       = Some "sk-a"
    /\ openai r = true.
Proof.
  intros s. eexists. split; [reflexivity|]. split; [vm_compute; reflexivity|].
  apply (reported_when_used {[ "OPENAI_API_KEY" := "" ]} (Settings s) "sk-a");
    [vm_compute; reflexivity|reflexivity|reflexivity].
Defined.

End KeyPoolFacts.

(** ** The build panel *)

Section BuildPanelFacts.
Import BuildPanel.

Lemma starts_send m p :
  starts (send m p) = starts p + (if is_start m then 1 else 0).
Proof.
  unfold starts, send; simpl. rewrite List.filter_app, length_app. simpl.
  now destruct (is_start m).
Qed.

Lemma timer_ok_idle p : timer_ok p -> isBuilding p = false -> Effect.armed (clock p) = [].
Proof.
  unfold timer_ok. intros H Hb. rewrite Hb in H.
  destruct (buildTimer p); now destruct H.
Qed.

Lemma panel_inv_handle c p ev :
  panel_inv c p -> panel_inv (c + (if is_complete ev then 1 else 0)) (handle p ev).
Proof.
  intros Hinv. pose proof Hinv as (Ht & Hs & Hp).
  destruct ev as [f| |text|result]; simpl.
  - (* build button *)
    rewrite Nat.add_0_r. unfold click_build.
    destruct (isBuilding p) eqn:Hb; [exact Hinv|].
    destruct (JS.truthy (JS.trim (BuildRequest.promptInput f))) eqn:Hprompt; simpl;
      [|exact Hinv].
    pose proof (timer_ok_idle p Ht Hb) as Harmed.
    split_and!.
    + unfold timer_ok, start_building, Effect.setInterval; simpl.
      rewrite Harmed. split; [lia|reflexivity].
    + rewrite starts_send. unfold starts, start_building; simpl.
      unfold starts in Hs. lia.
    + unfold send, start_building; simpl. apply Forall_app. split; [exact Hp|].
      constructor; [|constructor]. cbn [has_prompt]. eexists. split; [|exact Hprompt].
      apply (payload_lookups f).
  - (* cancel button *)
    rewrite Nat.add_0_r. unfold click_cancel.
    destruct (isBuilding p) eqn:Hb; simpl; [|exact Hinv].
    split_and!.
    + exact Ht.
    + rewrite starts_send. simpl. rewrite Hb in *. lia.
    + unfold send; simpl. apply Forall_app. split; [exact Hp|].
      now repeat constructor.
  - (* log line *)
    rewrite Nat.add_0_r. split_and!; [exact Ht|exact Hs|exact Hp].
  - (* build complete *)
    split_and!.
    + unfold timer_ok in *. simpl.
      destruct (buildTimer p) as [t|]; simpl.
      * destruct Ht as [Hlt Harmed]. split; [exact Hlt|].
        rewrite Harmed. destruct (isBuilding p); [|reflexivity].
        rewrite filter_cons, filter_nil. simpl. now case_decide.
      * destruct Ht as [_ Harmed]. now split.
    + simpl. unfold starts in *. simpl. destruct (isBuilding p); lia.
    + exact Hp.
Qed.

Lemma panel_inv_run evs c p :
  panel_inv c p ->
  panel_inv (c + length (List.filter is_complete evs)) (run evs p).
Proof.
  revert c p. induction evs as [|ev evs IH]; simpl; intros c p Hinv.
  - now rewrite Nat.add_0_r.
  - apply (panel_inv_handle c p ev) in Hinv. apply IH in Hinv.
    destruct (is_complete ev); simpl; [|now rewrite Nat.add_0_r in Hinv].
    now replace (c + S (length (List.filter is_complete evs)))
      with (c + 1 + length (List.filter is_complete evs)) by lia.
Qed.

(** X10: whatever is clicked and received after the window loads,
    the elapsed-time interval is armed exactly while a build is shown
    as running (so no interval is leaked and at most one runs); the
    build requests sent never outnumber the completions received by
    more than the build in progress; and every request sent carries
    a prompt that is not blank. *)
Theorem panel_keeps_one_timer (p0 : panel) (evs : list event) :
  fresh p0 ->
  timer_ok (run evs p0)
  /\ length (Effect.armed (clock (run evs p0)))
     = (if isBuilding (run evs p0) then 1 else 0)
  /\ starts (run evs p0)
     <= length (List.filter is_complete evs)
        + (if isBuilding (run evs p0) then 1 else 0)
  /\ Forall has_prompt (sent (run evs p0)).
Proof.
  intros (Hb & Ht & _ & Harmed & Hsent).
  assert (Hinv : panel_inv 0 p0).
  { unfold panel_inv, timer_ok, starts. rewrite Hb, Ht, Hsent. simpl.
    split_and!; auto. }
  apply (panel_inv_run evs) in Hinv. destruct Hinv as (Htimer & Hstarts & Hprompt).
  split_and!; auto.
  unfold timer_ok in Htimer. destruct (buildTimer (run evs p0)).
  - destruct Htimer as [_ ->]. now destruct (isBuilding (run evs p0)).
  - destruct Htimer as [-> ->]. reflexivity.
Qed.

End BuildPanelFacts.

Section BuildPanelMore.
Import BuildPanel.

Lemma panel_keeps_one_timer_witness :
  let f := {| BuildRequest.projectName := "Shop"; BuildRequest.promptInput := "a shop";
              BuildRequest.mode := "new"; BuildRequest.scale := "app";
              BuildRequest.platform := "python"; BuildRequest.model := "gpt-4o";
              BuildRequest.phase := "all"; BuildRequest.budgetId := "5";
              BuildRequest.fixCycles := "3"; BuildRequest.sourcePath := "";
              BuildRequest.focus := ""; BuildRequest.proModeToggle := false;
              BuildRequest.optDocker := false; BuildRequest.optReadme := false;
              BuildRequest.optDebug := false; BuildRequest.optSetup := false;
              BuildRequest.optVoice := false; BuildRequest.optNoBundle := false;
              BuildRequest.optClean := false; BuildRequest.optDecompile := false;
              BuildRequest.archModel := ""; BuildRequest.engModel := "";
              BuildRequest.reviewModel := ""; BuildRequest.localModel := "" |} in
  let p0 := {| isBuilding := false; buildTimer := None; fileCount := 0;
               statusText := "READY"; liveCost := ""; btnBuildDisabled := false;
               btnCancelDisabled := true;
               clock := {| Effect.armed := []; Effect.next_timer := 0;
                           Effect.calls := [] |};
               sent := [] |} in
  let done := {| Launcher.success := false; Launcher.code := Some None;
                 Launcher.aborted := false |} in
  let evs := [ClickBuild f; ClickBuild f; ClickCancel; BuildComplete done;
              BuildComplete done; ClickBuild f] in
  Effect.armed (clock (run evs p0)) = [(1, 1000%Z)]
  /\ starts (run evs p0) = 2
  /\ timer_ok (run evs p0)
  /\ Forall has_prompt (sent (run evs p0)).
Proof.
  intros f p0 done evs.
  destruct (panel_keeps_one_timer p0 evs) as (Ht & _ & _ & Hp).
  { repeat split. }
  split; [reflexivity|]. split; [reflexivity|]. split; [exact Ht|exact Hp].
Defined.

Lemma file_count_log lines p :
  fileCount (run (map LogUpdate lines) p)
  = fileCount p + length (List.filter is_written lines).
Proof.
  revert p. induction lines as [|l lines IH]; intros p; simpl; [lia|].
  unfold run in IH. rewrite IH. simpl. destruct (is_written l); simpl; lia.
Qed.

(** X11: the file counter shows how many of the lines logged since
    the build button started a build mention a written file (a check
    mark and the word WRITTEN, in any case). *)
Theorem file_count_since_start (p : panel) (f : BuildRequest.form) (lines : list string) :
  isBuilding p = false ->
  JS.truthy (JS.trim (BuildRequest.promptInput f)) = true ->
  fileCount (run (ClickBuild f :: map LogUpdate lines) p)
  = length (List.filter is_written lines).
Proof.
  intros Hb Hprompt. change (run (ClickBuild f :: map LogUpdate lines) p)
    with (run (map LogUpdate lines) (click_build f p)).
  rewrite file_count_log. unfold click_build. rewrite Hb, Hprompt. reflexivity.
Qed.

Lemma file_count_since_start_witness :
  let f := {| BuildRequest.projectName := ""; BuildRequest.promptInput := "x";
              BuildRequest.mode := ""; BuildRequest.scale := "";
              BuildRequest.platform := ""; BuildRequest.model := "";
              BuildRequest.phase := ""; BuildRequest.budgetId := "";
              BuildRequest.fixCycles := ""; BuildRequest.sourcePath := "";
              BuildRequest.focus := ""; BuildRequest.proModeToggle := false;
              BuildRequest.optDocker := false; BuildRequest.optReadme := false;
              BuildRequest.optDebug := false; BuildRequest.optSetup := false;
              BuildRequest.optVoice := false; BuildRequest.optNoBundle := false;
              BuildRequest.optClean := false; BuildRequest.optDecompile := false;
              BuildRequest.archModel := ""; BuildRequest.engModel := "";
              BuildRequest.reviewModel := ""; BuildRequest.localModel := "" |} in
  let p := {| isBuilding := false; buildTimer := Some 0; fileCount := 7;
              statusText := "FAILED"; liveCost := "$1.20"; btnBuildDisabled := false;
              btnCancelDisabled := true;
              clock := {| Effect.armed := []; Effect.next_timer := 1;
                          Effect.calls := [] |};
              sent := [] |} in
  fileCount (run (ClickBuild f :: map LogUpdate
                    ["[ENGINEER] ✓ written app.py"; "[ENGINEER] writing b.py";
                     "  ✓ Written: b.py"]) p) = 2.
Proof.
  intros f p. now rewrite (file_count_since_start p f).
Defined.

Lemma stderr_line_is_error l :
  JS.includes "[ERROR]" (JS.toUpperCase ("[ERROR] " +:+ l)) = true.
Proof. reflexivity. Qed.

(** X12: a line the launcher forwards from stderr never goes by
    unnoticed in the renderer: it is classified under one of the tags
    that come no later than ERROR in the table (never under the
    default), and the status becomes VERIFIED when the line mentions
    COMPLETE, SUCCESS or VERIFIED, and ISSUE DETECTED otherwise. *)
Theorem stderr_line_is_noticed
    (data : string) (st : Launcher.main_state) (text : string) (p : panel) :
  Launcher.Reply (Launcher.LogUpdate text) ∈ (Launcher.on_stderr data st).2 ->
  Renderer.tag (Renderer.classifyLine text)
    ∈ ["ARCHITECT"; "ENGINEER"; "REVIEWER"; "DEBUGGER"; "DOCKER"; "SUCCESS"; "ERROR"]
  /\ statusText (on_log_update text p)
     = (if looks_verified (JS.toUpperCase text) then "VERIFIED" else "ISSUE DETECTED").
Proof.
  intros Hin. unfold Launcher.on_stderr in Hin. simpl in Hin.
  apply list_elem_of_fmap in Hin as (l & Heq & _). injection Heq as ->.
  pose proof (stderr_line_is_error l) as Herr. split.
  - unfold Renderer.classifyLine, Renderer.AGENT_PERSONAS.
    cbn [List.find].
    repeat match goal with
           | |- context [Renderer.mentions ?u ?e] =>
               lazymatch e with
               | ("ERROR", _) =>
                   replace (Renderer.mentions u e) with true
                     by (symmetry; exact Herr)
               | _ => destruct (Renderer.mentions u e); [simpl; set_solver|]
               end
           end.
    simpl. set_solver.
  - unfold on_log_update. cbn [statusText]. unfold looks_broken. rewrite Herr.
    cbn [orb]. now destruct (looks_verified _).
Qed.

Lemma stderr_line_is_noticed_witness :
  let p := {| isBuilding := true; buildTimer := Some 0; fileCount := 0;
              statusText := "RUNNING"; liveCost := "$0.00"; btnBuildDisabled := true;
              btnCancelDisabled := false;
              clock := {| Effect.armed := [(0, 1000%Z)]; Effect.next_timer := 1;
                          Effect.calls := [] |};
              sent := [] |} in
  Renderer.tag (Renderer.classifyLine "[ERROR] Traceback (most recent call last):")
  = "ERROR"
  /\ statusText (on_log_update "[ERROR] Traceback (most recent call last):" p)
     = "ISSUE DETECTED".
Proof.
  intros p.
  destruct (stderr_line_is_noticed "Traceback (most recent call last):"
              {| Launcher.pythonProcess := Some 0; Launcher.spawned := 1 |}
              "[ERROR] Traceback (most recent call last):" p) as [_ Hs].
  { simpl. set_solver. }
  split; [reflexivity|exact Hs].
Defined.

Lemma takeWhile_all p s : Text.all_chars p (Text.takeWhile p s) = true.
Proof.
  induction s as [|c r IH]; simpl; [reflexivity|].
  destruct (p c) eqn:Hc; simpl; [now rewrite Hc|reflexivity].
Qed.

Lemma includes_cons p c s : JS.includes p s = true -> JS.includes p (String c s) = true.
Proof. intros H. simpl. rewrite H. apply orb_true_r. Qed.

Lemma startsWith_takeWhile p c s :
  JS.startsWith (String c (Text.takeWhile p s)) (String c s) = true.
Proof.
  simpl. rewrite Ascii.eqb_refl. simpl.
  induction s as [|d r IH]; simpl; [reflexivity|].
  destruct (p d); simpl; [now rewrite Ascii.eqb_refl|reflexivity].
Qed.

(** X13: the cost the listener copies from a line is a piece of that
    line made of a dollar sign and at least one digit or dot, and
    nothing else. *)
Theorem match_cost_shape (text cost : string) :
  Text.match_cost text = Some cost ->
  exists digits,
    cost = String "$" digits
    /\ digits <> ""
    /\ Text.all_chars Text.is_digit_or_dot digits = true
    /\ JS.includes cost text = true.
Proof.
  induction text as [|c r IH]; simpl; [discriminate|].
  destruct (Ascii.eqb_spec c "$") as [->|Hc]; simpl.
  - destruct (Text.takeWhile Text.is_digit_or_dot r) as [|d ds] eqn:Hrun; simpl.
    + intros H. destruct (IH H) as (digits & -> & Hne & Hall & Hinc).
      exists digits. split_and!; auto. now apply includes_cons.
    + intros H. injection H as <-. exists (String d ds). split_and!.
      * reflexivity.
      * discriminate.
      * rewrite <- Hrun. apply takeWhile_all.
      * rewrite <- Hrun.
        pose proof (startsWith_takeWhile Text.is_digit_or_dot "$" r) as Hs.
        simpl in Hs |- *. now rewrite Hs.
  - intros H. destruct (IH H) as (digits & -> & Hne & Hall & Hinc).
    exists digits. split_and!; auto. now apply includes_cons.
Qed.

Lemma match_cost_shape_witness :
  Text.match_cost "Cost: about $0.42 of $5 used." = Some "$0.42"
  /\ JS.includes "$0.42" "Cost: about $0.42 of $5 used." = true.
Proof.
  destruct (match_cost_shape "Cost: about $0.42 of $5 used." "$0.42" eq_refl)
    as (digits & _ & _ & _ & Hinc).
  split; [reflexivity|exact Hinc].
Defined.

End BuildPanelMore.

(** ** The message shown for a log line *)

Section CleanMsgFacts.
Import BuildPanel.

Lemma closes_strip r : Text.closes (Text.strip_from false r) = true -> Text.closes r = true.
Proof.
  induction r as [|c r IH]; simpl; [auto|].
  destruct (Ascii.eqb c "]") eqn:Hclose.
  - reflexivity.
  - destruct (Ascii.eqb c "[" && Text.closes r) eqn:Hopen.
    + apply andb_true_iff in Hopen as [Hc Hr]. intros _.
      apply Ascii.eqb_eq in Hc. subst c. exact Hr.
    + simpl. rewrite Hclose. destruct (Text.is_line_end c); auto.
Qed.

Lemma has_tag_strip inside s : Text.has_tag (Text.strip_from inside s) = false.
Proof.
  revert inside. induction s as [|c r IH]; intros inside; simpl;
    [now destruct inside|].
  destruct inside.
  - destruct (Ascii.eqb c "]"); apply IH.
  - destruct (Ascii.eqb c "[" && Text.closes r) eqn:Hopen; [apply IH|].
    simpl. rewrite IH, orb_false_r.
    destruct (Ascii.eqb c "["); [|reflexivity]. simpl in *.
    destruct (Text.closes (Text.strip_from false r)) eqn:Hs; [|reflexivity].
    apply closes_strip in Hs. congruence.
Qed.

Lemma strip_without_tag s : Text.has_tag s = false -> Text.strip_tags s = s.
Proof.
  unfold Text.strip_tags. induction s as [|c r IH]; simpl; [reflexivity|].
  intros H. apply orb_false_iff in H as [Hopen Hr]. rewrite Hopen.
  now rewrite IH.
Qed.

Lemma has_tag_trimStart s : Text.has_tag s = false -> Text.has_tag (JS.trimStart s) = false.
Proof.
  induction s as [|c r IH]; simpl; [auto|].
  intros H. destruct (JS.is_white c); [|exact H].
  apply IH. now apply orb_false_iff in H as [_ H].
Qed.

Lemma trimEnd_cases c r :
  JS.trimEnd (String c r) = ""
  \/ (JS.trimEnd (String c r) = String c "" /\ JS.trimEnd r = "")
  \/ JS.trimEnd (String c r) = String c (JS.trimEnd r).
Proof.
  simpl. destruct (JS.trimEnd r); [|now right; right].
  destruct (JS.is_white c); [now left|right; left; now split].
Qed.

Lemma closes_trimEnd r : Text.closes (JS.trimEnd r) = true -> Text.closes r = true.
Proof.
  induction r as [|c r IH]; [auto|].
  destruct (trimEnd_cases c r) as [E|[[E _]|E]]; rewrite E; simpl.
  - discriminate.
  - destruct (Ascii.eqb c "]"); [reflexivity|]. now destruct (Text.is_line_end c).
  - destruct (Ascii.eqb c "]"); [reflexivity|]. destruct (Text.is_line_end c); auto.
Qed.

Lemma has_tag_trimEnd s : Text.has_tag s = false -> Text.has_tag (JS.trimEnd s) = false.
Proof.
  induction s as [|c r IH]; [auto|]. intros H. simpl in H.
  apply orb_false_iff in H as [Hopen Hr].
  destruct (trimEnd_cases c r) as [E|[[E _]|E]]; rewrite E; simpl.
  - reflexivity.
  - now rewrite andb_false_r.
  - rewrite (IH Hr), orb_false_r.
    destruct (Ascii.eqb c "["); [|reflexivity]. simpl in *.
    destruct (Text.closes (JS.trimEnd r)) eqn:Hc; [|reflexivity].
    apply closes_trimEnd in Hc. congruence.
Qed.

(** X14: the message typed into the console for a log line is never
    empty and holds no bracketed tag any more; a line that has no tag
    and is not blank is shown as it is, trimmed. *)
Theorem clean_message (text : string) :
  cleanMsg text <> ""
  /\ Text.has_tag (cleanMsg text) = false
  /\ (Text.has_tag text = false -> JS.all_white text = false ->
      cleanMsg text = JS.trim text).
Proof.
  unfold cleanMsg. split_and!.
  - destruct (JS.truthy (JS.trim (Text.strip_tags text))) eqn:Ht.
    + intros E. rewrite E in Ht. discriminate.
    + unfold BuildRequest.or_else.
      destruct (JS.truthy (Text.strip_tags text)) eqn:Hs; [|discriminate].
      intros E. rewrite E in Hs. discriminate.
  - destruct (JS.truthy (JS.trim (Text.strip_tags text))).
    + apply has_tag_trimEnd, has_tag_trimStart, has_tag_strip.
    + unfold BuildRequest.or_else.
      destruct (JS.truthy (Text.strip_tags text)); [apply has_tag_strip|reflexivity].
  - intros Htag Hblank. rewrite (strip_without_tag text Htag).
    now rewrite trim_truthy, Hblank.
Qed.

Lemma clean_message_witness :
  cleanMsg "[ENGINEER] [a[b] writing app.py [unclosed " = "writing app.py [unclosed"
  /\ cleanMsg "[ARCHITECT][DONE]" = "..."
  /\ cleanMsg "  plain line " = "plain line".
Proof.
  split; [reflexivity|]. split; [reflexivity|].
  now apply (clean_message "  plain line ").
Defined.

End CleanMsgFacts.

(** ** The page's data and the alert panel's view *)

Section PageFacts.
Import Json DashboardPage.

(** X15: a refresh of the page changes the products and the
    analytics together or not at all: when any of the two requests
    fails in any way, both keep the values they had and the error is
    set; when both succeed, both are replaced and the error is
    cleared.  The loading flag is down afterwards in every case. *)
Theorem refresh_is_all_or_nothing (rp ra : fetched) (st : page) :
  loading (fetchDashboardData rp ra st) = false
  /\ seeding (fetchDashboardData rp ra st) = seeding st
  /\ ((products (fetchDashboardData rp ra st) = products st
       /\ analytics (fetchDashboardData rp ra st) = analytics st
       /\ is_Some (error (fetchDashboardData rp ra st)))
      \/ (exists sp tp productsData sa ta analyticsData,
            rp = Response true sp tp (Return productsData)
            /\ ra = Response true sa ta (Return analyticsData)
            /\ products (fetchDashboardData rp ra st)
               = match productsData with JArr items => items | _ => [] end
            /\ analytics (fetchDashboardData rp ra st) = Some analyticsData
            /\ error (fetchDashboardData rp ra st) = None)).
Proof.
  unfold fetchDashboardData.
  destruct rp as [mp|[|] sp tp [pd|mp]], ra as [ma|[|] sa ta [ad|ma]]; simpl;
    split_and!; try reflexivity;
    try (left; split_and!; [reflexivity|reflexivity|eexists; reflexivity]).
  right. exists sp, tp, pd, sa, ta, ad. split_and!; reflexivity.
Qed.

(** X16: a seed request that is rejected or answered with a bad
    status is silent: nothing is refreshed and no error is shown; the
    page is as before, with the seeding flag down. *)
Theorem failed_seed_is_silent (rs rp ra : fetched) (st : page) :
  (forall status statusText body, rs <> Response true status statusText body) ->
  handleSeed rs rp ra st
  = {| products := products st; analytics := analytics st; loading := loading st;
       seeding := false; error := error st |}.
Proof.
  intros Hrs. unfold handleSeed.
  destruct rs as [m|[|] status statusText body]; try reflexivity.
  now contradiction (Hrs status statusText body).
Qed.

Lemma failed_seed_is_silent_witness :
  let st := {| products := [JNull]; analytics := None; loading := false;
               seeding := true; error := Some "old" |} in
  handleSeed (Response false 500 "Internal Server Error" (Return JNull))
             (Response true 200 "OK" (Return (JArr [])))
             (Response true 200 "OK" (Return JNull)) st
  = {| products := [JNull]; analytics := None; loading := false;
       seeding := false; error := Some "old" |}.
Proof.
  intros st. apply (failed_seed_is_silent _ _ _ st). discriminate.
Defined.

End PageFacts.

Section AlertViewFacts.
Import Json AlertView.

(** X17: once the fetch has run the panel no longer shows the
    spinner; a bad status always shows the error panel; the green
    All Clear is shown exactly for a successful answer that is an
    empty array or not an array at all, and for a failure whose error
    message is empty. *)
Theorem alert_view_after_fetch (r : fetched) (p : StockAlert.panel) :
  render (refreshed r p) <> Loading
  /\ (forall status statusText body,
        r = Response false status statusText body ->
        render (refreshed r p) = ErrorPanel ("API returned " +:+ JS.show_Z status))
  /\ (forall status statusText item items,
        r = Response true status statusText (Return (JArr (item :: items))) ->
        render (refreshed r p) = LowStock (item :: items))
  /\ (render (refreshed r p) = AllClear
      <-> match r with
          | Response true _ _ (Return (JArr items)) => items = []
          | Response true _ _ (Return _) => True
          | Response true _ _ (Throw message) => message = ""
          | Response false _ _ _ => False
          | Rejected message => message = ""
          end).
Proof.
  split_and!.
  - destruct r as [[|c m]|[|] status statusText [[| | | |[|i items]|]|[|c m]]];
      discriminate.
  - intros status statusText body ->. reflexivity.
  - intros status statusText item items ->. reflexivity.
  - destruct r as [[|c m]|[|] status statusText [[| | | |[|i items]|]|[|c m]]];
      unfold refreshed, render; simpl; split; intros H;
      try reflexivity; try discriminate; try exact I; try contradiction.
Qed.

Lemma alert_view_after_fetch_witness :
  let p := {| StockAlert.alerts := [JNull]; StockAlert.loading := true;
              StockAlert.error := None |} in
  render (refreshed (Response false 503 "Service Unavailable" (Return (JArr []))) p)
  = ErrorPanel "API returned 503"
  /\ render (refreshed (Response true 200 "OK" (Return (JObj []))) p) = AllClear.
Proof.
  intros p. split.
  - destruct (alert_view_after_fetch
                (Response false 503 "Service Unavailable" (Return (JArr []))) p)
      as (_ & Hbad & _ & _).
    exact (Hbad _ _ _ eq_refl).
  - destruct (alert_view_after_fetch
                (Response true 200 "OK" (Return (JObj []))) p)
      as (_ & _ & _ & Hclear).
    apply Hclear. exact I.
Defined.

End AlertViewFacts.

(** ** The table's header and comparator *)

Section TableFacts.
Import ProductTable TableHeader.

Lemma handleSort_dir st field :
  sortDir st = "asc" \/ sortDir st = "desc" ->
  sortDir (handleSort st field) = "asc" \/ sortDir (handleSort st field) = "desc".
Proof.
  intros [H|H]; unfold handleSort; rewrite H;
    destruct (String.eqb (sortField st) field); simpl; auto.
Qed.

(** X18: whatever headers are clicked, the direction is always
    "asc" or "desc"; a click on another header sorts by it ascending;
    two clicks on the header of the current column give the sorting
    back as it was. *)
Theorem header_clicks (clicks : list string) :
  let st := fold_left handleSort clicks initial in
  (sortDir st = "asc" \/ sortDir st = "desc")
  /\ handleSort (handleSort st (sortField st)) (sortField st) = st
  /\ (forall field,
        field <> sortField st ->
        handleSort st field = {| sortField := field; sortDir := "asc" |}).
Proof.
  intros st.
  assert (Hdir : sortDir st = "asc" \/ sortDir st = "desc").
  { subst st. generalize initial, (or_introl eq_refl
                 : sortDir initial = "asc" \/ sortDir initial = "desc").
    induction clicks as [|c clicks IH]; simpl; [auto|].
    intros s Hs. apply IH. now apply handleSort_dir. }
  split_and!.
  - exact Hdir.
  - destruct st as [f d]. simpl in *. unfold handleSort. simpl.
    rewrite String.eqb_refl. simpl. rewrite String.eqb_refl.
    destruct Hdir as [->| ->]; reflexivity.
  - intros field Hne. unfold handleSort.
    destruct (String.eqb_spec (sortField st) field); [congruence|reflexivity].
Qed.

Section Comparator.
Variable StringToNumber : string -> option Q.

Lemma lessThan_asym a b :
  lessThan StringToNumber a b = true -> lessThan StringToNumber b a = false.
Proof.
  assert (Hnum : forall p q, negb (Qle_bool q p) = true -> negb (Qle_bool p q) = false).
  { intros p q H. apply negb_false_iff, Qle_bool_iff.
    apply negb_true_iff in H. apply Qlt_le_weak, Qnot_le_lt.
    intros Hle. apply Qle_bool_iff in Hle. congruence. }
  assert (Hstr : forall x y, String.ltb x y = true -> String.ltb y x = false).
  { intros x y. unfold String.ltb. rewrite (String.compare_antisym y x).
    now destruct (String.compare x y). }
  unfold lessThan.
  destruct a as [[| | |x]|], b as [[| | |y]|]; simpl;
    try discriminate; auto;
    repeat match goal with
           | |- context [StringToNumber ?s] => destruct (StringToNumber s)
           end;
    try discriminate; auto.
Qed.

(** X19: the comparator of the table is antisymmetric for every pair
    of products, every field and every direction, and the descending
    comparator is the opposite of the ascending one. *)
Theorem comparator_antisymmetric (sortField sortDir : string) (a b : product) :
  comparator StringToNumber sortField sortDir b a
  = (- comparator StringToNumber sortField sortDir a b)%Z
  /\ comparator StringToNumber sortField "desc" a b
     = (- comparator StringToNumber sortField "asc" a b)%Z.
Proof.
  unfold comparator.
  set (x := lowered (get a sortField)). set (y := lowered (get b sortField)).
  pose proof (lessThan_asym x y) as Hxy. pose proof (lessThan_asym y x) as Hyx.
  destruct (lessThan StringToNumber x y), (lessThan StringToNumber y x);
    try (specialize (Hxy eq_refl); discriminate);
    split; destruct (String.eqb sortDir "asc"); reflexivity.
Qed.

Lemma comparator_numeric field dir a b :
  numeric field a -> numeric field b ->
  ((comparator StringToNumber field dir a b <=? 0)%Z = true <-> in_order field dir a b)
  /\ ((comparator StringToNumber field dir a b <=? 0)%Z = false ->
      in_order field dir b a).
Proof.
  intros [qa Ha] [qb Hb]. unfold comparator, in_order, reading.
  rewrite Ha, Hb. simpl.
  destruct (Qle_bool qb qa) eqn:Hba, (Qle_bool qa qb) eqn:Hab; simpl;
    destruct (String.eqb dir "asc"); simpl;
    try apply Qle_bool_iff in Hba; try apply Qle_bool_iff in Hab;
    (split; [split; intros H; try reflexivity; try discriminate; auto|
             intros H; try discriminate; auto]).
  all: try (exfalso; apply (Qlt_not_le qa qb); [|assumption];
            apply Qnot_le_lt; intros Hle; apply Qle_bool_iff in Hle; congruence).
  all: try (exfalso; apply (Qlt_not_le qb qa); [|assumption];
            apply Qnot_le_lt; intros Hle; apply Qle_bool_iff in Hle; congruence).
  all: exfalso;
    destruct (Q_dec qa qb) as [[Hlt|Hlt]|Heq];
    [ apply Qlt_le_weak, Qle_bool_iff in Hlt; congruence
    | apply Qlt_le_weak, Qle_bool_iff in Hlt; congruence
    | assert (Hle : (qa <= qb)%Q) by (rewrite Heq; apply Qle_refl);
      apply Qle_bool_iff in Hle; congruence ].
Qed.

End Comparator.

End TableFacts.

Section SortedFacts.
Import ProductTable TableHeader.
Variable StringToNumber : string -> option Q.

Lemma in_order_trans field dir a b c :
  in_order field dir a b -> in_order field dir b c -> in_order field dir a c.
Proof.
  unfold in_order. destruct (String.eqb dir "asc"); intros H1 H2;
    eapply Qle_trans; eauto.
Qed.

Lemma insert_in_order field dir x l :
  numeric field x -> Forall (numeric field) l ->
  StronglySorted (in_order field dir) l ->
  StronglySorted (in_order field dir)
    (insert (comparator StringToNumber field dir) x l).
Proof.
  intros Hx Hl Hs. induction Hs as [|y l Hs IH Hy]; simpl.
  - repeat constructor.
  - apply Forall_cons in Hl as [Hny Hl].
    destruct (comparator_numeric StringToNumber field dir x y Hx Hny) as [Hle Hgt].
    destruct (comparator StringToNumber field dir x y <=? 0)%Z.
    + assert (Hxy : in_order field dir x y) by now apply Hle.
      constructor; [now constructor|]. constructor; [exact Hxy|].
      eapply Forall_impl; [exact Hy|]. intros z Hz. simpl in Hz.
      eapply in_order_trans; eauto.
    + constructor; [now apply IH|].
      eapply Permutation_Forall; [symmetry; apply insert_perm|].
      constructor; [now apply Hgt|exact Hy].
Qed.

Lemma sort_in_order field dir l :
  Forall (numeric field) l ->
  StronglySorted (in_order field dir) (sort (comparator StringToNumber field dir) l).
Proof.
  unfold sort. induction l as [|x l IH]; simpl; intros Hl; [constructor|].
  apply Forall_cons in Hl as [Hx Hl]. apply insert_in_order; auto.
  eapply Permutation_Forall; [symmetry; apply sort_perm|exact Hl].
Qed.

(** X20: when every product holds a number in the column sorted by,
    the sorted array is in order: each row's reading is at most that
    of every later row for "asc", and at least for any other
    direction. *)
Theorem sorted_numeric_column (h : gmap nat (list product)) (addr : nat)
    (arr : list product) (sortField sortDir : string) :
  h !! addr = Some arr ->
  Forall (numeric sortField) arr ->
  exists out,
    (sorted StringToNumber h (ArrayRef addr) sortField sortDir).2
      !! (sorted StringToNumber h (ArrayRef addr) sortField sortDir).1 = Some out
    /\ StronglySorted (in_order sortField sortDir) out.
Proof.
  intros Harr Hnum. unfold sorted. rewrite Harr. simpl.
  eexists. split.
  - rewrite lookup_alter_eq, lookup_insert_eq. reflexivity.
  - now apply sort_in_order.
Qed.

End SortedFacts.

Lemma sorted_numeric_column_witness :
  let h : gmap nat (list ProductTable.product) :=
    {[ 2 := [ [("sku", ProductTable.VStr "A"); ("unit_price", ProductTable.VNum 3)];
              [("sku", ProductTable.VStr "B"); ("unit_price", ProductTable.VNum (1 # 2))];
              [("sku", ProductTable.VStr "C"); ("unit_price", ProductTable.VNum 2)] ] ]} in
  exists out,
    (ProductTable.sorted (fun _ => None) h (ProductTable.ArrayRef 2) "unit_price" "asc").2
      !! (ProductTable.sorted (fun _ => None) h (ProductTable.ArrayRef 2)
            "unit_price" "asc").1 = Some out
    /\ map (fun p => ProductTable.get p "sku") out
       = [Some (ProductTable.VStr "B"); Some (ProductTable.VStr "C");
          Some (ProductTable.VStr "A")]
    /\ StronglySorted (TableHeader.in_order "unit_price" "asc") out.
Proof.
  intros h.
  destruct (sorted_numeric_column (fun _ => None) h 2 _ "unit_price" "asc" eq_refl)
    as (out & Hout & Hsorted).
  { repeat constructor; eexists; reflexivity. }
  exists out. split; [exact Hout|]. split; [|exact Hsorted].
  vm_compute in Hout. now injection Hout as <-.
Defined.

(** ** The dashboard totals *)

Section TotalsFacts.
Import Stats Contribution.

Lemma fold_visit_totals projects t :
  totalFiles (fold_left visit projects t) = (totalFiles t + sum_files projects)%Z
  /\ successfulBuilds (fold_left visit projects t)
     = successfulBuilds t + sum_successes projects.
Proof.
  revert t. induction projects as [|proj projects IH]; intros t; simpl.
  - split; lia.
  - destruct (IH (visit t proj)) as [-> ->].
    unfold visit, files, successes.
    destruct (project_manifest proj) as [| |m]; simpl; [split; lia..|].
    destruct (is_successful m); split; lia.
Qed.

Lemma sums_permutation l1 l2 :
  l1 ≡ₚ l2 -> sum_files l1 = sum_files l2 /\ sum_successes l1 = sum_successes l2.
Proof.
  unfold sum_files, sum_successes.
  induction 1 as [|x l l' _ [IH1 IH2]|x y l|l l' l'' _ [IH1 IH2] _ [IH3 IH4]]; simpl.
  - split; reflexivity.
  - split; congruence.
  - split; lia.
  - split; congruence.
Qed.



End TotalsFacts.

(** ** Cancelling and restarting a build *)

Section RestartFacts.
Import Launcher.

Lemma held_is_running w c :
  reachable w -> pythonProcess (main w) = Some c ->
  is_running w c = true /\ c < spawned (main w).
Proof.
  intros Hw Hc. destruct (reachable_coherent w Hw) as (Hrun & _ & Hh).
  destruct (Hh c Hc) as [[Hin _] _]. split; [|now apply Hrun].
  unfold is_running. now apply bool_decide_eq_true.
Qed.

(** X22: cancelling a running build sends two [build-complete]
    messages, not one: the aborted one at once and, when the [close]
    event of the killed child arrives, a second one, which makes the
    renderer replace ABORTED by FAILED (by COMPLETE for exit code 0). *)
Theorem cancel_then_close (w : world) (c : nat) (exit : option Z)
    (v : Renderer.build_view) :
  reachable w ->
  pythonProcess (main w) = Some c ->
  exists w' first second,
    deliver_all [CancelBuild; Close c exit] w = Some w'
    /\ outbox w'
       = outbox w ++ [LogUpdate "[ERROR] Build aborted by operator.";
                      BuildComplete first; BuildComplete second]
    /\ aborted first = true
    /\ Renderer.statusText (Renderer.on_build_complete first v) = "ABORTED"
    /\ Renderer.statusText
         (Renderer.on_build_complete second (Renderer.on_build_complete first v))
       = (if bool_decide (exit = Some 0%Z) then "COMPLETE" else "FAILED")
    /\ pythonProcess (main w') = None
    /\ c ∉ running w'.
Proof.
  intros Hw Hc. destruct (held_is_running w c Hw Hc) as [Hrun _].
  destruct w as [[h n] run kil out]. simpl in Hc. subst h.
  unfold is_running in Hrun. simpl in Hrun.
  set (first := {| success := false; code := None; aborted := true |}).
  set (second := if bool_decide (exit = Some 0%Z)
                 then {| success := true; code := None; aborted := false |}
                 else {| success := false; code := Some exit; aborted := false |}).
  set (w1 := {| main := {| pythonProcess := None; spawned := n |};
                running := run; killed := c :: kil;
                outbox := (out ++ [LogUpdate "[ERROR] Build aborted by operator."])
                          ++ [BuildComplete first] |}).
  set (w2 := {| main := {| pythonProcess := None; spawned := n |};
                running := filter (fun d => d <> c) run; killed := c :: kil;
                outbox := outbox w1 ++ [BuildComplete second] |}).
  assert (H2 : deliver w1 (Close c exit) = Some w2).
  { unfold deliver, is_running. cbn [running w1]. rewrite Hrun.
    subst second. destruct exit as [[| |]|]; reflexivity. }
  exists w2, first, second. split_and!.
  - cbn [deliver_all].
    change (deliver _ CancelBuild) with (Some w1). cbv beta iota.
    now rewrite H2.
  - cbn [outbox w2 w1]. now rewrite <- !app_assoc.
  - reflexivity.
  - reflexivity.
  - subst second. destruct exit as [[| |]|]; reflexivity.
  - reflexivity.
  - cbn [running w2]. rewrite list_elem_of_filter. tauto.
Qed.

Lemma cancel_then_close_witness :
  exists w,
    deliver_all [StartBuild; CancelBuild; Close 0 None] initial = Some w
    /\ outbox w
       = [LogUpdate "[ERROR] Build aborted by operator.";
          BuildComplete {| success := false; code := None; aborted := true |};
          BuildComplete {| success := false; code := Some None; aborted := false |}].
Proof.
  destruct (cancel_then_close
              {| main := {| pythonProcess := Some 0; spawned := 1 |};
                 running := [0]; killed := []; outbox := [] |} 0 None
              {| Renderer.isBuilding := true; Renderer.statusText := "RUNNING" |})
    as (w & first & second & Hw & Hout & _).
  - apply (deliver_all_reachable [StartBuild] initial); [constructor|reflexivity].
  - reflexivity.
  - exists w. split; [exact Hw|].
    cbn in Hw. injection Hw as <-. reflexivity.
Defined.

(** X23: restarting a build while a child runs loses the new child
    as soon as the [close] event of the old one arrives: the handle is
    cleared although the new child is running and was never killed,
    and a later [cancel-build] does nothing. *)
Theorem restart_then_stale_close (w : world) (c : nat) (exit : option Z) :
  reachable w ->
  pythonProcess (main w) = Some c ->
  exists w',
    deliver_all [StartBuild; Close c exit] w = Some w'
    /\ pythonProcess (main w') = None
    /\ live w' (spawned (main w))
    /\ run_handler cancel_build w' = w'.
Proof.
  intros Hw Hc. destruct (held_is_running w c Hw Hc) as [Hrun Hlt].
  destruct (reachable_coherent w Hw) as (Hr & Hk & _).
  destruct w as [[h n] run kil out]. simpl in Hc, Hlt, Hr, Hk. subst h.
  unfold is_running in Hrun. simpl in Hrun. apply bool_decide_eq_true in Hrun.
  set (w1 := {| main := {| pythonProcess := Some n; spawned := S n |};
                running := n :: run; killed := c :: kil; outbox := out |}).
  assert (H2 : exists msgs,
             deliver w1 (Close c exit)
             = Some {| main := {| pythonProcess := None; spawned := S n |};
                       running := filter (fun d => d <> c) (n :: run);
                       killed := c :: kil; outbox := msgs |}).
  { unfold deliver, is_running. cbn [running w1].
    rewrite bool_decide_eq_true_2 by set_solver.
    destruct exit as [[| |]|]; eexists; reflexivity. }
  destruct H2 as [msgs H2].
  exists {| main := {| pythonProcess := None; spawned := S n |};
            running := filter (fun d => d <> c) (n :: run);
            killed := c :: kil; outbox := msgs |}.
  split_and!.
  - cbn [deliver_all]. change (deliver _ StartBuild) with (Some w1).
    cbv beta iota. now rewrite H2.
  - reflexivity.
  - unfold live. cbn [running killed spawned main]. split.
    + apply list_elem_of_filter. split; [lia|set_solver].
    + intros Hin. apply elem_of_cons in Hin as [->|Hin]; [lia|].
      apply Hk in Hin. lia.
  - reflexivity.
Qed.

Lemma restart_then_stale_close_witness :
  exists w,
    deliver_all [StartBuild; StartBuild; Close 0 None] initial = Some w
    /\ pythonProcess (main w) = None
    /\ running w = [1]
    /\ killed w = [0].
Proof.
  destruct (restart_then_stale_close
              {| main := {| pythonProcess := Some 0; spawned := 1 |};
                 running := [0]; killed := []; outbox := [] |} 0 None)
    as (w & Hw & Hnone & _).
  - apply (deliver_all_reachable [StartBuild] initial); [constructor|reflexivity].
  - reflexivity.
  - exists w. split; [exact Hw|]. cbn in Hw. injection Hw as <-. repeat split.
Defined.

End RestartFacts.

(** ** The phase stepper *)

Section StepperFacts.
Import PhaseStepper.

Lemma find_some_first {A} (f : A -> bool) (l : list A) (x : A) :
  List.find f l = Some x ->
  exists pre post,
    l = pre ++ x :: post /\ f x = true /\ forall e, e ∈ pre -> f e = false.
Proof.
  induction l as [|y l IH]; simpl; [discriminate|].
  destruct (f y) eqn:Hy.
  - intros H. injection H as <-. exists [], l. split_and!; auto.
    intros e He. inversion He.
  - intros H. destruct (IH H) as (pre & post & -> & Hx & Hpre).
    exists (y :: pre), post. split_and!; auto.
    intros e He. apply elem_of_cons in He as [->|He]; auto.
Qed.

Lemma phase_of_line_known text key :
  phase_of_line text = Some key -> key ∈ steps.
Proof.
  unfold phase_of_line.
  destruct (List.find _ PHASE_MAP) as [[k kws]|] eqn:Hfind; [|discriminate].
  apply find_some in Hfind as [Hin _]. simpl. intros H. injection H as <-.
  unfold PHASE_MAP in Hin. simpl in Hin. unfold steps.
  repeat (destruct Hin as [Hin|Hin]; [injection Hin as <- _; set_solver|]).
  contradiction.
Qed.

Lemma phase_of_line_first text key :
  phase_of_line text = Some key ->
  exists pre keywords post,
    PHASE_MAP = pre ++ (key, keywords) :: post
    /\ existsb (fun kw => JS.includes kw (JS.toUpperCase text)) keywords = true
    /\ forall e, e ∈ pre ->
         existsb (fun kw => JS.includes kw (JS.toUpperCase text)) (snd e) = false.
Proof.
  unfold phase_of_line.
  destruct (List.find _ PHASE_MAP) as [[k kws]|] eqn:Hfind; [|discriminate].
  simpl. intros H. injection H as <-.
  destruct (find_some_first _ _ _ Hfind) as (pre & post & Hmap & Hk & Hpre).
  exists pre, kws, post. split_and!; auto.
Qed.

(** X24: a log line either holds no phase keyword and leaves the
    stepper alone, or sets it so that exactly one step is active,
    every step before it is completed and no step after it is marked;
    the active step is the first phase, in the order of the table,
    one of whose keywords occurs in the upper-cased line. *)
Theorem stepper_after_line (text : string) (marks : list mark) :
  (phase_of_line text = None /\ after_line text marks = marks)
  \/ exists i key pre keywords post,
       steps !! i = Some key
       /\ PHASE_MAP = pre ++ (key, keywords) :: post
       /\ existsb (fun kw => JS.includes kw (JS.toUpperCase text)) keywords = true
       /\ (forall e, e ∈ pre ->
           existsb (fun kw => JS.includes kw (JS.toUpperCase text)) (snd e) = false)
       /\ after_line text marks
          = replicate i Completed ++ Active :: replicate (4 - i) Plain.
Proof.
  unfold after_line. destruct (phase_of_line text) as [key|] eqn:Hphase;
    [right|now left].
  pose proof (phase_of_line_known text key Hphase) as Hkey. unfold steps in Hkey.
  destruct (phase_of_line_first text key Hphase) as (pre & kws & post & Hmap & Hk & Hpre).
  assert (Hshape : exists i,
             steps !! i = Some key
             /\ updatePhaseStepper key
                = replicate i Completed ++ Active :: replicate (4 - i) Plain).
  { repeat (apply elem_of_cons in Hkey as [->|Hkey];
            [first [ exists 0; now split | exists 1; now split | exists 2; now split
                   | exists 3; now split | exists 4; now split ]|]).
    inversion Hkey. }
  destruct Hshape as (i & Hi & Hshape).
  exists i, key, pre, kws, post. split_and!; auto.
Qed.

End StepperFacts.
